(** * robotoff: extraction of French postal addresses from OCR text

    A shallow embedding of [robotoff/insights/ocr/location.py] and the
    properties of its gazetteer loader, text preparation, postal code
    search and address assembly, and of the script [import_dump.py].

    Python values are embedded as follows: a [str] is the list of its
    code points, an [int] is a [Z], a slice follows Python's rules for
    negative and out-of-range indices, and an exception is a value of
    [exn] returned in place of the result. *)

From Stdlib Require Import ZArith NArith Lia String Ascii QArith Qcanon.
From stdpp Require Import base tactics option numbers list.

Set Warnings "-register-all".
Open Scope Z_scope.

(** ** Python built-ins used by the module *)

Module Py.

(** A code point and a Python [str]. *)
Definition char := N.
Definition str := list char.

(** A string literal of the source, as a [str]. *)
Definition lit (s : string) : str :=
  map N_of_ascii (list_ascii_of_string s).

(** [len(s)] *)
Definition len {A} (s : list A) : Z := Z.of_nat (length s).

(** The position a slice index [i] denotes in a sequence of length [n]:
    a negative index counts from the end, and the result is clamped
    to [0 .. n]. *)
Definition slice_index (n i : Z) : Z :=
  if i <? 0 then Z.max 0 (i + n) else Z.min i n.

(** [s[lo:hi]]; [None] stands for an omitted bound. *)
Definition slice {A} (s : list A) (lo hi : option Z) : list A :=
  let n := len s in
  let l := match lo with Some i => slice_index n i | None => 0 end in
  let h := match hi with Some i => slice_index n i | None => n end in
  take (Z.to_nat (h - l)) (drop (Z.to_nat l) s).

(** [s.startswith(sub)] *)
Fixpoint startswith (sub s : str) : bool :=
  match sub, s with
  | [], _ => true
  | _ :: _, [] => false
  | a :: sub', b :: s' => (a =? b)%N && startswith sub' s'
  end.

(** [s.find(sub)] shifted by [i]: the lowest index at which [sub]
    occurs in [s], or [-1]. *)
Fixpoint find_from (sub s : str) (i : Z) : Z :=
  if startswith sub s then i
  else match s with
       | [] => -1
       | _ :: s' => find_from sub s' (i + 1)
       end.

(** [s.find(sub)] *)
Definition find (s sub : str) : Z := find_from sub s 0.

(** [s.replace(old, new)] for one-character [old] and [new]. *)
Definition replace (s : str) (old new : char) : str :=
  map (fun c => if (c =? old)%N then new else c) s.

(** [max(a, b)] and [min(a, b)] on integers are [Z.max] and [Z.min]. *)

End Py.

(** ** The part of [unicodedata] the module relies on *)

Module Unicode.
Import Py.

Section Tables.
(** The Unicode character database: the full compatibility
    decomposition of a code point (the code point itself when it has
    none) and its canonical combining class. *)
Variable decomposition : char -> list char.
Variable combining : char -> N.

(** Canonical ordering, one character at a time from the right: a
    combining mark is put after the marks of a strictly smaller class
    that follow it; a starter (class 0) never moves and is never
    passed. *)
Fixpoint reorder_insert (c : char) (l : list char) : list char :=
  if (combining c =? 0)%N then c :: l
  else match l with
       | [] => [c]
       | d :: l' =>
           if negb (combining d =? 0)%N && (combining d <? combining c)%N
           then d :: reorder_insert c l'
           else c :: l
       end.

Definition canonical_order (l : list char) : list char :=
  foldr reorder_insert [] l.

(** [unicodedata.normalize("NFKD", text)] *)
Definition normalize_NFKD (text : str) : str :=
  canonical_order (flat_map decomposition text).

End Tables.

(** The entries of the Unicode character database for the accented
    letters of French: code point, base letter, combining mark. *)
Definition french_accented : list (char * (char * char)) :=
  [ (0xE0, (0x61, 0x300)); (0xE2, (0x61, 0x302)); (0xE4, (0x61, 0x308));
    (0xE7, (0x63, 0x327));
    (0xE8, (0x65, 0x300)); (0xE9, (0x65, 0x301)); (0xEA, (0x65, 0x302));
    (0xEB, (0x65, 0x308));
    (0xEE, (0x69, 0x302)); (0xEF, (0x69, 0x308));
    (0xF4, (0x6F, 0x302)); (0xF6, (0x6F, 0x308));
    (0xF9, (0x75, 0x300)); (0xFB, (0x75, 0x302)); (0xFC, (0x75, 0x308));
    (0xFF, (0x79, 0x308));
    (0xC0, (0x41, 0x300)); (0xC2, (0x41, 0x302)); (0xC4, (0x41, 0x308));
    (0xC7, (0x43, 0x327));
    (0xC8, (0x45, 0x300)); (0xC9, (0x45, 0x301)); (0xCA, (0x45, 0x302));
    (0xCB, (0x45, 0x308));
    (0xCE, (0x49, 0x302)); (0xCF, (0x49, 0x308));
    (0xD4, (0x4F, 0x302)); (0xD6, (0x4F, 0x308));
    (0xD9, (0x55, 0x300)); (0xDB, (0x55, 0x302)); (0xDC, (0x55, 0x308));
    (0x178, (0x59, 0x308)) ]%N.

(** The ligatures of French, which have no decomposition. *)
Definition french_ligatures : list char := [0xE6; 0xC6; 0x153; 0x152]%N.

(** The combining marks above, with their combining class. *)
Definition french_marks : list (char * N) :=
  [ (0x300, 230); (0x301, 230); (0x302, 230); (0x308, 230); (0x327, 202) ]%N.

Fixpoint assoc {B} (c : char) (t : list (char * B)) : option B :=
  match t with
  | [] => None
  | (k, v) :: t' => if (c =? k)%N then Some v else assoc c t'
  end.

(** The database restricted to basic Latin and the French letters;
    every other code point is left alone. *)
Definition french_decomposition (c : char) : list char :=
  match assoc c french_accented with
  | Some (b, m) => [b; m]
  | None => [c]
  end.

Definition french_combining (c : char) : N :=
  match assoc c french_marks with
  | Some k => k
  | None => 0%N
  end.

(** A French letter without its accent; any other code point as it
    is. *)
Definition french_base (c : char) : char :=
  match assoc c french_accented with
  | Some (b, _) => b
  | None => c
  end.

(** Basic Latin (U+0000 to U+007F) plus the French accented letters and
    ligatures. *)
Definition french_letter (c : char) : bool :=
  (c <? 0x80)%N
  || bool_decide (is_Some (assoc c french_accented))
  || bool_decide (c ∈ french_ligatures).

(** The database agrees with the excerpt on a code point. *)
Definition agrees_on (decomposition : char -> list char)
    (combining : char -> N) (c : char) : Prop :=
  decomposition c = french_decomposition c
  /\ Forall (fun d => combining d = french_combining d) (french_decomposition c).

End Unicode.

(** ** The part of [re] the module relies on *)

Module Re.
Import Py.

(** The constructs that occur in the pattern of the module. *)
Inductive regex : Type :=
| Class (p : char -> bool)   (* a character class such as [[^0-9]] *)
| Lit (s : str)              (* a run of ordinary characters *)
| Bol                        (* [^] *)
| Eol                        (* [$] *)
| Seq (r1 r2 : regex)
| Alt (r1 r2 : regex)        (* [r1|r2], the left branch first *)
| Group (r : regex).         (* [(r)] and [(?:r)] *)

(** [$] without [MULTILINE]: at the end of the string, or just before a
    newline that ends the string. *)
Definition at_eol (w : str) (pos : nat) : bool :=
  bool_decide (pos = length w)
  || (bool_decide (S pos = length w) && bool_decide (w !! pos = Some 10%N)).

(** The backtracking matcher: [match_here r w pos k] matches [r] in [w]
    at [pos] and hands the position it reaches to [k]; when [k] fails
    the next alternative is tried. *)
Fixpoint match_here {X} (r : regex) (w : str) (pos : nat)
    (k : nat -> option X) : option X :=
  match r with
  | Class p =>
      match w !! pos with
      | Some c => if p c then k (S pos) else None
      | None => None
      end
  | Lit s =>
      if startswith s (drop pos w) then k (pos + length s)%nat else None
  | Bol => if bool_decide (pos = 0%nat) then k pos else None
  | Eol => if at_eol w pos then k pos else None
  | Seq r1 r2 => match_here r1 w pos (fun p => match_here r2 w p k)
  | Alt r1 r2 =>
      match match_here r1 w pos k with
      | Some x => Some x
      | None => match_here r2 w pos k
      end
  | Group r1 => match_here r1 w pos k
  end.

(** A match object: the searched string and the bounds of group 0. *)
Record Match : Type := mkMatch { string_ : str; start_ : nat; end_ : nat }.

(** [match.group()], [match.start()], [match.end()] (group 0). *)
Definition group (m : Match) : str :=
  take (end_ m - start_ m) (drop (start_ m) (string_ m)).
Definition start (m : Match) : Z := Z.of_nat (start_ m).
Definition end' (m : Match) : Z := Z.of_nat (end_ m).

(** The scan of [re.search]: the first start position, from [pos] on,
    at which the pattern matches. *)
Fixpoint search_at (r : regex) (w : str) (pos fuel : nat) : option Match :=
  match match_here r w pos Some with
  | Some e => Some (mkMatch w pos e)
  | None =>
      match fuel with
      | O => None
      | S fuel' => search_at r w (S pos) fuel'
      end
  end.

(** [re.search] on a compiled pattern: every start position from 0 to
    [len(w)] is tried in turn. *)
Definition search (r : regex) (w : str) : option Match :=
  search_at r w 0 (length w).

(** [[0-9]] and [[^0-9]] *)
Definition is_digit (c : char) : bool := (48 <=? c)%N && (c <=? 57)%N.
Definition non_digit (c : char) : bool := negb (is_digit c).

End Re.

(** ** Data model *)

(** A value produced by [json.load]. A number is kept by its exact value
    (every finite [int] and [float] has one); the non-standard literals
    [NaN] and [Infinity] are outside the model. A [dict] is the list of
    its items in insertion order, keys distinct. *)
Inductive pyval : Type :=
| PNone
| PBool (b : bool)
| PNum (q : Qc)
| PStr (s : Py.str)
| PList (l : list pyval)
| PDict (m : list (Py.str * pyval)).

(** The exceptions the module can raise. *)
Inductive exn : Type :=
| BadGzipFile
| JSONDecodeError
| KeyError (k : Py.str)
| TypeError
| AttributeError.

(** A computation that returns a value or raises. *)
Inductive result (A : Type) : Type :=
| Return (a : A)
| Raise (e : exn).
Arguments Return {A} a.
Arguments Raise {A} e.

#[global] Instance result_bind : MBind result := fun A B f m =>
  match m with
  | Return a => f a
  | Raise e => Raise e
  end.

(** A loop that calls [f] on each element and collects the results; the
    first exception ends it. *)
Fixpoint for_each {A B} (f : A -> result B) (l : list A) : result (list B) :=
  match l with
  | [] => Return []
  | a :: l' => b ← f a; bs ← for_each f l'; Return (b :: bs)
  end.

(** [class City]: a frozen dataclass. The fields hold whatever the
    dataset holds: nothing checks the annotations [str] and
    [Optional[Tuple[float, float]]] at run time. *)
Record City : Type := mkCity {
  name : Py.str;
  postal_code : pyval;
  coordinates : option (list pyval)
}.

(** What a hashable scalar is compared and hashed by: [True == 1] and
    [1 == 1.0] hold, and the hashes agree. *)
Inductive atom : Type :=
| ANone
| ANum (q : Qc)
| AStr (s : Py.str).

(** Modelled from the spec: a text annotation of the class [OCRResult]
    of [robotoff.insights.ocr.dataclass], which is not part of the
    sources at hand. An [OCRResult] holds an ordered list of text
    annotations, of which the first carries a locale tag, and one
    lowercase string of the full text in which a two-character marker
    separates the full description from the per-word annotations. *)
Record OCRTextAnnotation : Type := mkAnnotation {
  locale : option Py.str
}.

(** Modelled from the spec: the two attributes of [OCRResult] that the
    module reads. *)
Record OCRResult : Type := mkOCRResult {
  text_annotations : list OCRTextAnnotation;
  text_annotations_str_lower : Py.str
}.

(** The dictionary [extract_location] returns, by key. *)
Record ExtractionResult : Type := mkResult {
  cities : list (Py.str * Z * Z);
  full_cities : list ((Py.str * Z * Z) * (Py.str * Z * Z));
  addresses : list Py.str
}.

(** [class AddressExtractor]: the gazetteer and the keyword processor,
    which is the sequence of [add_keyword(keyword, value)] calls made on
    it. *)
Record AddressExtractor : Type := mkExtractor {
  self_cities : list City;
  cities_processor : list (Py.str * City)
}.

(** ** Operations on the values of [json.load] *)

Module Obj.
Import Py.

(** [d[k]] and [d.get(k)] on the items of a [dict]. *)
Fixpoint lookup_item (k : str) (m : list (str * pyval)) : option pyval :=
  match m with
  | [] => None
  | (k', v) :: m' => if bool_decide (k' = k) then Some v else lookup_item k m'
  end.

(** [v[k]] for a string key [k]: only a [dict] can be indexed by a
    string. *)
Definition getitem (v : pyval) (k : str) : result pyval :=
  match v with
  | PDict m =>
      match lookup_item k m with
      | Some x => Return x
      | None => Raise (KeyError k)
      end
  | _ => Raise TypeError
  end.

(** [v.get(k)]: only a [dict] has the method. *)
Definition get (v : pyval) (k : str) : result pyval :=
  match v with
  | PDict m => Return (default PNone (lookup_item k m))
  | _ => Raise AttributeError
  end.

(** The elements [for item in v] and [tuple(v)] go through: those of a
    list, the keys of a [dict], the characters of a [str]. *)
Definition iter (v : pyval) : result (list pyval) :=
  match v with
  | PList l => Return l
  | PDict m => Return (map (fun kv => PStr (fst kv)) m)
  | PStr s => Return (map (fun c => PStr [c]) s)
  | _ => Raise TypeError
  end.

(** What a hashable value is hashed and compared by; lists and
    dictionaries are not hashable. *)
Definition hash_key (v : pyval) : option atom :=
  match v with
  | PNone => Some ANone
  | PBool b => Some (ANum (if b then 1%Qc else 0%Qc))
  | PNum q => Some (ANum q)
  | PStr s => Some (AStr s)
  | PList _ | PDict _ => None
  end.

End Obj.

#[global] Instance atom_eq_dec : EqDecision atom.
Proof. solve_decision. Defined.

(** The key of a [City] in a set: the dataclass compares and hashes the
    tuple of its three fields. *)
Definition City_key : Type := Py.str * atom * option (list atom).

Definition city_key (c : City) : option City_key :=
  k ← Obj.hash_key (postal_code c);
  t ← match coordinates c with
      | None => Some None
      | Some xs => Some <$> mapM Obj.hash_key xs
      end;
  Some (name c, k, t).

(** [set(cities)], as the list of the cities it holds with their keys: a
    city equal to one already in the set is not added, one that cannot be
    hashed raises [TypeError]. *)
Fixpoint set_of (l : list City) (acc : list (City_key * City))
    : result (list (City_key * City)) :=
  match l with
  | [] => Return acc
  | c :: l' =>
      match city_key c with
      | None => Raise TypeError
      | Some k =>
          set_of l' (if bool_decide (k ∈ acc.*1) then acc else acc ++ [(k, c)])
      end
  end.

(** The pattern of [find_nearby_postal_code] for a postal code [code]
    made of digits, as [re] parses it:
    [(?:[^0-9]|^)(code)(?:[^0-9]|$)]. *)
Definition postal_pattern (code : Py.str) : Re.regex :=
  Re.Seq (Re.Group (Re.Alt (Re.Class Re.non_digit) Re.Bol))
    (Re.Seq (Re.Group (Re.Lit code))
            (Re.Group (Re.Alt (Re.Class Re.non_digit) Re.Eol))).

(** A postal code is a run of digits. *)
Definition is_postal_code (code : Py.str) : bool := forallb Re.is_digit code.

(** ** The libraries the module calls *)

(** What the module needs of the libraries it imports: each function is
    taken for what it computes. *)
Class Libraries : Type := {
  (** [unicodedata]: the full compatibility decomposition of a code point
      and its canonical combining class. *)
  decomposition : Py.char -> list Py.char;
  combining : Py.char -> N;
  (** [str.lower] and, for a value that is not a string, [str()]. *)
  lower : Py.str -> Py.str;
  str_of : pyval -> Py.str;
  (** [re]: the parser of pattern texts. *)
  compile : Py.str -> Re.regex;
  (** [flashtext]: [KeywordProcessor.extract_keywords(text, span_info=True)]
      of a processor that holds the given keywords. *)
  extract_keywords : list (Py.str * City) -> Py.str -> list (City * Z * Z);
  (** [gzip] and [json]: the decompressed content of a stream and the
      value of a JSON text, when there is one. *)
  gzip_read : list Byte.byte -> option (list Byte.byte);
  json_load : list Byte.byte -> option pyval;
  (** The content of the dataset shipped with the package, the resource
      that [CITIES_FR_RESOURCE] names. *)
  CITIES_FR_RESOURCE : list Byte.byte;
  (** The order in which [list] goes through a set. *)
  set_order : list City -> list City
}.

(** ** The module [robotoff.insights.ocr.location] *)

Section Location.
Import Py.

Context {L : Libraries}.

(** [if coords is not None: coords = tuple(coords)] *)
Definition tuple_unless_none (coords : pyval) : result (option (list pyval)) :=
  match coords with
  | PNone => Return None
  | _ => t ← Obj.iter coords; Return (Some t)
  end.

(** One record of the dataset, the body of the loop of
    [load_cities_fr]. *)
Definition city_of_item (item : pyval) : result City :=
  city_data ← Obj.getitem item (lit "fields");
  coords ← Obj.get city_data (lit "coordonnees_gps");
  coords ← tuple_unless_none coords;
  commune ← Obj.getitem city_data (lit "nom_de_la_commune");
  lowered ← match commune with
            | PStr s => Return (lower s)
            | _ => Raise AttributeError
            end;
  code ← Obj.getitem city_data (lit "code_postal");
  Return (mkCity lowered code coords).

(** [load_cities_fr(source)]; a path is given by the content of the
    file it names, [None] stands for the default. *)
Definition load_cities_fr (source : option (list Byte.byte))
    : result (list City) :=
  let source := match source with
                | None => CITIES_FR_RESOURCE
                | Some s => s
                end in
  cities_file ← match gzip_read source with
                | Some content => Return content
                | None => Raise BadGzipFile
                end;
  json_data ← match json_load cities_file with
              | Some v => Return v
              | None => Raise JSONDecodeError
              end;
  items ← Obj.iter json_data;
  cities ← for_each city_of_item items;
  unique ← set_of cities [];
  Return (set_order unique.*2).

(** [remove_accents(text)] *)
Definition remove_accents (text : str) : str :=
  let nfkd_form := Unicode.normalize_NFKD decomposition combining text in
  filter (fun c => combining c = 0%N) nfkd_form.

(** [get_locale(ocr_result)] *)
Definition get_locale (ocr_result : OCRResult) : option str :=
  if 0 <? len (text_annotations ocr_result) then
    match text_annotations ocr_result with
    | a :: _ => locale a
    | [] => None
    end
  else None.

(** [AddressExtractor.__init__(cities)] *)
Definition init (cities : list City) : AddressExtractor :=
  mkExtractor cities (map (fun city => (name city, city)) cities).

(** [AddressExtractor.prepare_text] *)
Definition prepare_text (text_annotations_str_lower : str) : str :=
  let text := text_annotations_str_lower in
  let text := slice text None (Some (find text (lit "||"))) in
  let text := remove_accents text in
  let text := replace (replace text 39%N 32%N) 45%N 32%N in
  text.

(** [AddressExtractor.find_city_names] *)
Definition find_city_names (self : AddressExtractor) (text : str)
    : list (City * Z * Z) :=
  extract_keywords (cities_processor self) text.

(** ["{}".format(v)] *)
Definition format (v : pyval) : str :=
  match v with
  | PStr s => s
  | _ => str_of v
  end.

(** [AddressExtractor.find_nearby_postal_code] *)
Definition find_nearby_postal_code (text : str) (city : City)
    (span : Z * Z) : option (str * Z * Z) :=
  let max_distance := 10 in
  let pattern :=
    lit "(?:[^0-9]|^)(" ++ format (postal_code city) ++ lit ")(?:[^0-9]|$)" in
  let sub_start := Z.max 0 (fst span - max_distance) in
  let sub_end := Z.min (len text) (snd span + max_distance) in
  let sub_text := slice text (Some sub_start) (Some sub_end) in
  match Re.search (compile pattern) sub_text with
  | None => None
  | Some m =>
      Some (Re.group m, sub_start + Re.start m, sub_start + Re.end' m)
  end.

(** The body of the loop of [extract_location]: the state is the pair
    of the lists [full_cities] and [addresses]. *)
Definition link_step (text : str)
    (acc : list ((str * Z * Z) * (str * Z * Z)) * list str)
    (found : City * Z * Z)
    : list ((str * Z * Z) * (str * Z * Z)) * list str :=
  let surround_distance := 30 in
  let '(city, span0, span1) := found in
  match find_nearby_postal_code text city (span0, span1) with
  | Some nearby_code =>
      let '(_, code_start, code_end) := nearby_code in
      let address_start := Z.min span0 code_start - surround_distance in
      let address_end := Z.max span1 code_end + surround_distance in
      (fst acc ++ [(nearby_code, (name city, span0, span1))],
       snd acc ++ [slice text (Some (Z.max 0 address_start))
                              (Some (Z.min (len text) address_end))])
  | None => acc
  end.

(** [AddressExtractor.extract_location] *)
Definition extract_location (self : AddressExtractor)
    (ocr_result : OCRResult) : ExtractionResult :=
  let locale := get_locale ocr_result in
  if bool_decide (locale <> Some (lit "fr")) then mkResult [] [] []
  else
    let text := prepare_text (text_annotations_str_lower ocr_result) in
    let cities := find_city_names self text in
    let '(full_cities, addresses) :=
      fold_left (link_step text) cities ([], []) in
    mkResult (map (fun c => (name (fst (fst c)), snd (fst c), snd c)) cities)
             full_cities addresses.

(** [find_locations(content)] *)
Definition find_locations (content : OCRResult)
    : result (list ExtractionResult) :=
  cities ← load_cities_fr None;
  let location_extractor := init cities in
  Return [extract_location location_extractor content].

End Location.

(** ** Notions the properties are stated with *)

Section Specification.
Import Py.
Context {L : Libraries}.

(** [sub] occurs in [s] at position [k]. *)
Definition occurs_at (sub s : str) (k : nat) : Prop :=
  sub `prefix_of` drop k s /\ (k <= length s)%nat.

(** What is left of one code point: its decomposition without the
    combining marks. *)
Definition base_chars (c : char) : list char :=
  filter (fun d => combining d = 0%N) (decomposition c).

(** The character before position [p] of [w], or after the occurrence
    that ends at [q], is a digit. *)
Definition digit_before (w : str) (p : nat) : bool :=
  match p with
  | O => false
  | S p' => match w !! p' with Some c => Re.is_digit c | None => false end
  end.

Definition digit_after (w : str) (q : nat) : bool :=
  match w !! q with Some c => Re.is_digit c | None => false end.

(** An occurrence of [code] at [p] with no digit on either side. *)
Definition free_occurrence (code w : str) (p : nat) : Prop :=
  occurs_at code w p
  /\ digit_before w p = false
  /\ digit_after w (p + length code) = false.

(** The text searched for the postal code of a city found at [span]. *)
Definition search_window (text : str) (span : Z * Z) : str :=
  slice text (Some (Z.max 0 (fst span - 10)))
             (Some (Z.min (len text) (snd span + 10))).

(** Every occurrence of [code] in [w] touches a digit. *)
Definition digit_adjacent_everywhere (code w : str) : bool :=
  forallb (fun p => implb (startswith code (drop p w))
                      (digit_before w p || digit_after w (p + length code)))
          (seq 0 (S (length w))).

(** A bound clipped to the positions of a text of length [n]. *)
Definition clip (n x : Z) : Z := Z.max 0 (Z.min n x).

(** The address snippet as the specification words it: from 30
    characters before the earlier start to 30 characters after the later
    end, both clipped to the text. *)
Definition address_snippet (text : str) (city_span code_span : Z * Z) : str :=
  slice text
    (Some (clip (len text) (Z.min (fst city_span) (fst code_span) - 30)))
    (Some (clip (len text) (Z.max (snd city_span) (snd code_span) + 30))).

(** The city matches that have a postal code nearby, each with the match
    of its postal code, in the order of the city matches. *)
Definition linked_pairs (text : str) (found : list (City * Z * Z))
    : list ((City * Z * Z) * (str * Z * Z)) :=
  omap (fun c => let '(city, s, e) := c in
                 (fun code => (c, code))
                   <$> find_nearby_postal_code text city (s, e))
       found.

Definition full_city_of (p : (City * Z * Z) * (str * Z * Z))
    : (str * Z * Z) * (str * Z * Z) :=
  let '((city, s, e), code) := p in (code, (name city, s, e)).

Definition address_of (text : str) (p : (City * Z * Z) * (str * Z * Z)) : str :=
  let '((_, s, e), (_, code_start, code_end)) := p in
  address_snippet text (s, e) (code_start, code_end).

(** [0 <= s < e <= len(text)]: a span of [text] that is not empty. *)
Definition span_in (text : str) (s e : Z) : Prop :=
  0 <= s /\ s < e /\ e <= len text.


(** The last two steps of [prepare_text]: accents removed, apostrophes
    and hyphens replaced by spaces. *)
Definition normalize_chars (text : str) : str :=
  replace (replace (remove_accents text) 39%N 32%N) 45%N 32%N.

(** The tables of [unicodedata] hold the entries of the French letters. *)
Definition french_tables : Prop :=
  forall c, Unicode.french_letter c = true ->
    Unicode.agrees_on decomposition combining c.

(** The state of a set under construction: distinct keys, each the key
    of the city stored with it. *)
Definition set_inv (acc : list (City_key * City)) : Prop :=
  NoDup acc.*1 /\ forall k c, (k, c) ∈ acc -> city_key c = Some k.

(** The stream that is read, and the JSON value it holds. *)
Definition stream_of (source : option (list Byte.byte)) : list Byte.byte :=
  match source with
  | None => CITIES_FR_RESOURCE
  | Some s => s
  end.

Definition source_json (source : option (list Byte.byte)) : option pyval :=
  gzip_read (stream_of source) ≫= json_load.

(** A record that holds, under ["fields"], a commune name and a postal
    code. *)
Definition has_required_fields (record : pyval) : bool :=
  match record with
  | PDict m =>
      match Obj.lookup_item (lit "fields") m with
      | Some (PDict f) =>
          bool_decide (is_Some (Obj.lookup_item (lit "nom_de_la_commune") f))
          && bool_decide (is_Some (Obj.lookup_item (lit "code_postal") f))
      | _ => false
      end
  | _ => false
  end.

Definition hashable (v : pyval) : bool :=
  bool_decide (is_Some (Obj.hash_key v)).

(** A record the loader can use: the commune name is a string, the
    postal code is a scalar, and the coordinates are absent, [null], or
    a sequence of scalars. *)
Definition usable_record (record : pyval) : bool :=
  match record with
  | PDict m =>
      match Obj.lookup_item (lit "fields") m with
      | Some (PDict f) =>
          match Obj.lookup_item (lit "nom_de_la_commune") f with
          | Some (PStr _) => true
          | _ => false
          end
          && match Obj.lookup_item (lit "code_postal") f with
             | Some v => hashable v
             | None => false
             end
          && match Obj.lookup_item (lit "coordonnees_gps") f with
             | None | Some PNone => true
             | Some v =>
                 match Obj.iter v with
                 | Return t => forallb hashable t
                 | Raise _ => false
                 end
             end
      | _ => false
      end
  | _ => false
  end.

End Specification.

(** ** The script [import_dump] *)

(** What [import_dump] needs of the libraries it imports: [json.loads]
    on a line of text, [str()] of a value that is not a string, and the
    identifiers that [str(uuid.uuid4())] draws, in the order of the
    draws. *)
Class DumpLibraries : Type := {
  json_loads : Py.str -> option pyval;
  dump_str_of : pyval -> Py.str;
  uuid4 : nat -> Py.str
}.

(** The dictionary built for one row. *)
Record Insert : Type := mkInsert {
  id : Py.str;
  product_id : pyval;
  predicted_category : pyval;
  confidence : pyval;
  last_updated_at : Py.str
}.

Section ImportDump.
Import Py.
Context {D : DumpLibraries}.

(** [str(v)] *)
Definition to_str (v : pyval) : str :=
  match v with
  | PStr s => s
  | _ => dump_str_of v
  end.

(** One step of the generator [iter_jsonl]: the value of a line. *)
Definition iter_jsonl_item (line : str) : result pyval :=
  match json_loads line with
  | Some item => Return item
  | None => Raise JSONDecodeError
  end.

(** The dictionary [insert] of the row [item], the identifier being the
    one of draw number [draw]. *)
Definition insert_of (draw : nat) (item : pyval) : result Insert :=
  let id := uuid4 draw in
  product_id ← Obj.getitem item (lit "code");
  predicted_category ← Obj.getitem item (lit "predicted_categories_tag");
  confidence ← Obj.getitem item (lit "predicted_categories_prob");
  last_modified_t ← Obj.getitem item (lit "last_modified_t");
  Return (mkInsert id product_id predicted_category confidence
            (to_str last_modified_t)).

(** The loop of [import_dump] over the lines still to read. The state
    is the list [inserts], the counter [rows] and the calls of
    [insert_many(...).execute()] made so far, each by its argument; the
    result is the calls made and how the loop ended. *)
Fixpoint import_loop (lines : list str) (inserts : list Insert) (rows : Z)
    (calls : list (list Insert)) : list (list Insert) * result unit :=
  match lines with
  | [] => (calls ++ [inserts], Return tt)
  | line :: lines' =>
      match iter_jsonl_item line with
      | Raise e => (calls, Raise e)
      | Return item =>
          match insert_of (Z.to_nat rows) item with
          | Raise e => (calls, Raise e)
          | Return insert =>
              let inserts := inserts ++ [insert] in
              let rows := rows + 1 in
              if rows mod 100 =? 0
              then import_loop lines' [] rows (calls ++ [inserts])
              else import_loop lines' inserts rows calls
          end
      end
  end.

(** [import_dump(jsonl_path)], for the lines of the file at the path. *)
Definition import_dump (lines : list str) : list (list Insert) * result unit :=
  import_loop lines [] 0 [].

(** The rows built from the lines up to the first line that raises, and
    the exception it raises, if any. *)
Fixpoint rows_of (lines : list str) (draw : nat) : list Insert * option exn :=
  match lines with
  | [] => ([], None)
  | line :: lines' =>
      match item ← iter_jsonl_item line; insert_of draw item with
      | Raise e => ([], Some e)
      | Return r => let '(rs, o) := rows_of lines' (S draw) in (r :: rs, o)
      end
  end.

End ImportDump.

(** A reader of lines that takes a line of digits for a row with the
    four fields, and any other line for a faulty one. *)
Definition sample_json_loads (line : Py.str) : option pyval :=
  if forallb Re.is_digit line && negb (bool_decide (line = []))
  then Some (PDict [(Py.lit "code", PStr line);
                    (Py.lit "predicted_categories_tag", PStr (Py.lit "en:teas"));
                    (Py.lit "predicted_categories_prob", PNum 1%Qc);
                    (Py.lit "last_modified_t", PStr line)])
  else None.

Definition sample_dump_libraries : DumpLibraries :=
  Build_DumpLibraries sample_json_loads (fun _ => Py.lit "None")
    (fun n => repeat 120%N n).

(** ** Small instances of the libraries, to run the module on *)

Module Sample.
Import Py.

(** [str.lower] on basic Latin. *)
Definition lower (s : str) : str :=
  map (fun c => if (65 <=? c)%N && (c <=? 90)%N then (c + 32)%N else c) s.

(** [str()] of [None] and of the Booleans; the text of a number or of a
    container is not needed on the samples. *)
Definition str_of (v : pyval) : str :=
  match v with
  | PStr s => s
  | PBool true => lit "True"
  | PBool false => lit "False"
  | _ => lit "None"
  end.

(** A parser for the one pattern shape of the module: what stands
    between the two fixed parts is read as a run of ordinary
    characters. *)
Definition compile (pattern : str) : Re.regex :=
  let prefix := lit "(?:[^0-9]|^)(" in
  let suffix := lit ")(?:[^0-9]|$)" in
  let body :=
    take (length pattern - length prefix - length suffix)
         (drop (length prefix) pattern) in
  postal_pattern body.

(** The first keyword, in the order added, that [s] starts with. *)
Fixpoint keyword_at (kws : list (str * City)) (s : str)
    : option (str * City) :=
  match kws with
  | [] => None
  | (kw, v) :: kws' =>
      if bool_decide (kw <> []) && startswith kw s then Some (kw, v)
      else keyword_at kws' s
  end.

(** A keyword scan from left to right without overlaps: [skip]
    characters of the last match are still to be passed. *)
Fixpoint scan (kws : list (str * City)) (s : str) (i : Z) (skip : nat)
    : list (City * Z * Z) :=
  match s with
  | [] => []
  | _ :: s' =>
      match skip with
      | S n => scan kws s' (i + 1) n
      | O =>
          match keyword_at kws s with
          | Some (kw, v) =>
              (v, i, i + len kw) :: scan kws s' (i + 1) (length kw - 1)
          | None => scan kws s' (i + 1) 0
          end
      end
  end.

Definition extract_keywords (kws : list (str * City)) (text : str)
    : list (City * Z * Z) :=
  scan kws text 0 0.

Definition paris : City := mkCity (lit "paris") (PStr (lit "75001")) None.

(** A French document, and the same text without a locale. *)
Definition french_ocr : OCRResult :=
  mkOCRResult [mkAnnotation (Some (lit "fr"))]
    (lit "a paris 75001 b||a||paris||75001||b").

Definition unknown_ocr : OCRResult := mkOCRResult [] [].

Definition english_ocr : OCRResult :=
  mkOCRResult [mkAnnotation (Some (lit "en"))]
    (lit "a paris 75001 b||a||paris||75001||b").

(** Records of the dataset: a usable one, the same with one more field
    outside [fields], one whose commune name is a number, and one
    without a postal code. *)
Definition record_paris : pyval :=
  PDict [(lit "fields",
          PDict [(lit "nom_de_la_commune", PStr (lit "PARIS"));
                 (lit "code_postal", PStr (lit "75001"))])].

Definition record_paris' : pyval :=
  PDict [(lit "recordid", PStr (lit "7f3a"));
         (lit "fields",
          PDict [(lit "nom_de_la_commune", PStr (lit "PARIS"));
                 (lit "code_postal", PStr (lit "75001"))])].

Definition record_numeric_name : pyval :=
  PDict [(lit "fields",
          PDict [(lit "nom_de_la_commune", PNum 1%Qc);
                 (lit "code_postal", PStr (lit "75001"))])].

Definition record_no_code : pyval :=
  PDict [(lit "fields",
          PDict [(lit "nom_de_la_commune", PStr (lit "PARIS"))])].

(** A stream reader that takes every stream as it is, one that rejects
    every stream, and JSON readers with a fixed outcome. *)
Definition gunzip (b : list Byte.byte) : option (list Byte.byte) := Some b.
Definition gunzip_fails (b : list Byte.byte) : option (list Byte.byte) := None.
Definition json_is (v : pyval) (b : list Byte.byte) : option pyval := Some v.
Definition json_fails (b : list Byte.byte) : option pyval := None.

(** A set listed in the order of insertion. *)
Definition insertion_order (l : list City) : list City := l.

(** The sample libraries, for a given reader of streams and of JSON. *)
Definition libraries (gz : list Byte.byte -> option (list Byte.byte))
    (js : list Byte.byte -> option pyval) : Libraries :=
  Build_Libraries Unicode.french_decomposition Unicode.french_combining
    lower str_of compile extract_keywords gz js [] insertion_order.

Definition libs : Libraries := libraries gunzip json_fails.

End Sample.

(** The functions of the module on the sample libraries. *)
Definition sample_prepare_text : Py.str -> Py.str :=
  prepare_text (L := Sample.libs).

Definition sample_normalize_chars : Py.str -> Py.str :=
  normalize_chars (L := Sample.libs).

Definition sample_find_nearby_postal_code
    : Py.str -> City -> Z * Z -> option (Py.str * Z * Z) :=
  find_nearby_postal_code (L := Sample.libs).

Definition sample_extract_location
    : AddressExtractor -> OCRResult -> ExtractionResult :=
  extract_location (L := Sample.libs).

Definition sample_load (gz : list Byte.byte -> option (list Byte.byte))
    (js : list Byte.byte -> option pyval) : result (list City) :=
  load_cities_fr (L := Sample.libraries gz js) (Some []).

(** ** Properties *)

Section Facts.
Import Py.
Context {L : Libraries}.

(** [re] reads the pattern of a postal code made of digits as
    [postal_pattern]. *)
Hypothesis compile_postal_pattern : forall code : str,
  is_postal_code code = true ->
  compile (lit "(?:[^0-9]|^)(" ++ code ++ lit ")(?:[^0-9]|$)")
  = postal_pattern code.

(** [flashtext] reports, for a keyword it holds, a span of the text that
    is not empty. *)
Hypothesis extract_keywords_spans :
  forall (keywords : list (str * City)) (text : str) (c : City) (s e : Z),
    (c, s, e) ∈ extract_keywords keywords text ->
    span_in text s e /\ exists kw, (kw, c) ∈ keywords.

(** The order of a list built from a set is some order of its
    elements. *)
Hypothesis set_order_permutation : forall l : list City, set_order l ≡ₚ l.

(** *** Facts about the built-ins *)

Lemma len_nonneg {A} (s : list A) : 0 <= len s.
Proof. unfold len. lia. Qed.

Lemma len_app {A} (s t : list A) : len (s ++ t) = len s + len t.
Proof. unfold len. rewrite length_app. lia. Qed.

Lemma slice_index_range (n i : Z) :
  0 <= n -> 0 <= slice_index n i <= n.
Proof. unfold slice_index. destruct (i <? 0) eqn:E; lia. Qed.

Lemma slice_index_id (n i : Z) : 0 <= i <= n -> slice_index n i = i.
Proof. unfold slice_index. destruct (i <? 0) eqn:E; lia. Qed.

(** A slice whose bounds are positions of the sequence is the part
    between them. *)
Lemma slice_within {A} (s : list A) (lo hi : Z) :
  0 <= lo <= len s -> 0 <= hi <= len s ->
  slice s (Some lo) (Some hi)
  = take (Z.to_nat (hi - lo)) (drop (Z.to_nat lo) s).
Proof.
  intros Hlo Hhi. unfold slice.
  by rewrite !slice_index_id.
Qed.

Lemma slice_length {A} (s : list A) (lo hi : Z) :
  0 <= lo <= hi -> hi <= len s ->
  len (slice s (Some lo) (Some hi)) = hi - lo.
Proof.
  intros Hlo Hhi. rewrite slice_within by lia.
  unfold len in *. rewrite length_take, length_drop. lia.
Qed.

(** [s[:-1]] drops the last element, if there is one. *)
Lemma slice_minus_one {A} (s : list A) :
  slice s None (Some (-1)) = removelast s.
Proof.
  unfold slice, slice_index, len. simpl.
  replace (Z.to_nat (Z.max 0 (-1 + Z.of_nat (length s)) - 0))
    with (length s - 1)%nat by lia.
  rewrite drop_0.
  induction s as [|a [|b s] IH]; [done..|].
  replace (length (a :: b :: s) - 1)%nat with (S (length (b :: s) - 1))
    by (simpl; lia).
  cbn [take removelast]. f_equal. exact IH.
Qed.

(** [s[:k]] for a position [k] keeps the first [k] elements. *)
Lemma slice_prefix {A} (s : list A) (k : Z) :
  0 <= k <= len s -> slice s None (Some k) = take (Z.to_nat k) s.
Proof.
  intros Hk. unfold slice. rewrite slice_index_id by done.
  by rewrite Z.sub_0_r.
Qed.

Lemma startswith_prefix (sub s : str) :
  startswith sub s = true <-> sub `prefix_of` s.
Proof.
  revert s. induction sub as [|a sub IH]; intros [|b s]; simpl.
  - split; [intros _; apply prefix_nil | done].
  - split; [intros _; apply prefix_nil | done].
  - split; [done | intros H; by apply prefix_nil_not in H].
  - rewrite andb_true_iff, N.eqb_eq, IH. split.
    + intros [-> H]. by apply prefix_cons.
    + intros H. split; [by eapply prefix_cons_inv_1 | by eapply prefix_cons_inv_2].
Qed.

(** [find] returns the lowest position of an occurrence, or [-1] when
    there is none. *)
Lemma find_from_spec (sub s : str) (i : Z) :
  (find_from sub s i = -1 /\ forall k, ~ occurs_at sub s k)
  \/ (exists k : nat, find_from sub s i = i + Z.of_nat k
        /\ occurs_at sub s k /\ forall j, (j < k)%nat -> ~ occurs_at sub s j).
Proof.
  revert i. induction s as [|c s IH]; intros i; simpl.
  - destruct (startswith sub []) eqn:E.
    + right. exists 0%nat. split; [lia|]. split; [|lia].
      split; [by apply startswith_prefix | simpl; lia].
    + left. split; [done|]. intros k [Hk Hle]. simpl in Hle.
      assert (k = 0%nat) as -> by lia.
      apply startswith_prefix in Hk. simpl in Hk. congruence.
  - destruct (startswith sub (c :: s)) eqn:E.
    + right. exists 0%nat. split; [lia|]. split; [|lia].
      split; [by apply startswith_prefix | simpl; lia].
    + assert (Hz : ~ occurs_at sub (c :: s) 0).
      { intros [H _]. apply startswith_prefix in H. simpl in H. congruence. }
      destruct (IH (i + 1)) as [[Hr Hno] | (k & Hr & Hocc & Hlow)].
      * left. split; [done|]. intros [|k] Hk; [done|].
        apply (Hno k). destruct Hk as [Hk Hle]. split; [done | simpl in Hle; lia].
      * right. exists (S k). split; [lia|]. split.
        -- destruct Hocc as [Hk Hle]. split; [done | simpl; lia].
        -- intros [|j] Hj; [done|]. intros [Hk Hle].
           apply (Hlow j); [lia|]. split; [done | simpl in Hle; lia].
Qed.

Lemma find_spec (s sub : str) :
  (find s sub = -1 /\ forall k, ~ occurs_at sub s k)
  \/ (exists k : nat, find s sub = Z.of_nat k
        /\ occurs_at sub s k /\ forall j, (j < k)%nat -> ~ occurs_at sub s j).
Proof.
  unfold find. destruct (find_from_spec sub s 0) as [H | (k & Hr & H)].
  - by left.
  - right. exists k. by rewrite Hr.
Qed.

Lemma replace_length (s : str) (old new : char) :
  length (replace s old new) = length s.
Proof. unfold replace. by rewrite length_map. Qed.

(** *** Facts about accent stripping *)

Lemma reorder_insert_starters (c : char) (l : list char) :
  filter (fun d => combining d = 0%N)
    (Unicode.reorder_insert combining c l)
  = filter (fun d => combining d = 0%N) (c :: l).
Proof.
  induction l as [|d l IH]; simpl.
  - by destruct (combining c =? 0)%N.
  - destruct (combining c =? 0)%N eqn:Ec; [done|].
    apply N.eqb_neq in Ec.
    destruct (negb (combining d =? 0)%N && (combining d <? combining c)%N)
      eqn:Ed; [|done].
    apply andb_true_iff in Ed as [Ed _].
    apply negb_true_iff, N.eqb_neq in Ed.
    rewrite (filter_cons _ d), decide_False by done.
    rewrite IH.
    rewrite !filter_cons, !decide_False by done. done.
Qed.

Lemma canonical_order_starters (l : list char) :
  filter (fun d => combining d = 0%N) (Unicode.canonical_order combining l)
  = filter (fun d => combining d = 0%N) l.
Proof.
  induction l as [|c l IH]; [done|].
  unfold Unicode.canonical_order in *. simpl.
  rewrite reorder_insert_starters, !filter_cons, IH. done.
Qed.

(** Accent stripping works code point by code point: the reordering of
    the marks is lost with the marks. *)
Lemma remove_accents_flat_map (text : str) :
  remove_accents text = flat_map base_chars text.
Proof.
  unfold remove_accents, Unicode.normalize_NFKD.
  rewrite canonical_order_starters.
  induction text as [|c text IH]; [done|].
  simpl. by rewrite filter_app, IH.
Qed.

(** X11: accent stripping goes through concatenation: the marks that
    normalization moves across the junction are removed anyway. *)
Lemma remove_accents_app (s t : str) :
  remove_accents (s ++ t) = remove_accents s ++ remove_accents t.
Proof. by rewrite !remove_accents_flat_map, flat_map_app. Qed.

(** Case analysis on the comparisons of a table lookup. *)
Ltac table_cases tac :=
  repeat match goal with
         | |- context [(?c =? ?k)%N] => destruct (N.eqb_spec c k); [tac|]
         end.

(** A letter of French leaves exactly one character. *)
Lemma french_letter_base (c : char) :
  Unicode.french_letter c = true ->
  length (filter (fun d => Unicode.french_combining d = 0%N)
            (Unicode.french_decomposition c)) = 1%nat.
Proof.
  unfold Unicode.french_letter. rewrite !orb_true_iff.
  intros [[H | H] | H].
  - apply N.ltb_lt in H.
    assert (Hd : Unicode.french_decomposition c = [c]).
    { unfold Unicode.french_decomposition, Unicode.french_accented. simpl.
      table_cases lia. done. }
    assert (Hc : Unicode.french_combining c = 0%N).
    { unfold Unicode.french_combining, Unicode.french_marks. simpl.
      table_cases lia. done. }
    by rewrite Hd, filter_cons, decide_True.
  - apply bool_decide_eq_true in H. revert H.
    unfold Unicode.french_decomposition, Unicode.french_accented. simpl.
    table_cases ltac:(subst c; intros _; by vm_compute).
    by intros [? ?].
  - apply bool_decide_eq_true in H.
    unfold Unicode.french_ligatures in H.
    repeat (apply elem_of_cons in H as [-> | H]; [by vm_compute|]).
    by apply elem_of_nil in H.
Qed.

(** *** Facts about the matcher *)

(** A match started inside the string ends inside it, at or after the
    start, whatever the pattern. *)
Lemma match_here_bounds {X} (r : Re.regex) (w : str) (pos : nat)
    (k : nat -> option X) (x : X) :
  (pos <= length w)%nat ->
  Re.match_here r w pos k = Some x ->
  exists e, (pos <= e <= length w)%nat /\ k e = Some x.
Proof.
  revert pos k. induction r as [p|s| | |r1 IH1 r2 IH2|r1 IH1 r2 IH2|r IH];
    intros pos k Hpos H; simpl in H.
  - destruct (w !! pos) as [c|] eqn:Ec; [|done].
    destruct (p c); [|done].
    apply lookup_lt_Some in Ec. exists (S pos). split; [lia | done].
  - destruct (startswith s (drop pos w)) eqn:Es; [|done].
    apply startswith_prefix, prefix_length in Es.
    rewrite length_drop in Es.
    exists (pos + length s)%nat. split; [lia | done].
  - case_bool_decide; [|done]. exists pos. split; [lia | done].
  - destruct (Re.at_eol w pos); [|done]. exists pos. split; [lia | done].
  - apply IH1 in H as (e1 & He1 & H); [|done].
    apply IH2 in H as (e2 & He2 & H); [|lia].
    exists e2. split; [lia | done].
  - destruct (Re.match_here r1 w pos k) as [y|] eqn:E1.
    + injection H as ->. by apply IH1 in E1.
    + by apply IH2 in H.
  - by apply IH in H.
Qed.

(** What [search] returns is the leftmost match. *)
Lemma search_at_Some (r : Re.regex) (w : str) (pos fuel : nat) (m : Re.Match) :
  Re.search_at r w pos fuel = Some m ->
  Re.string_ m = w
  /\ (pos <= Re.start_ m <= pos + fuel)%nat
  /\ Re.match_here r w (Re.start_ m) Some = Some (Re.end_ m)
  /\ forall j, (pos <= j < Re.start_ m)%nat -> Re.match_here r w j Some = None.
Proof.
  revert pos. induction fuel as [|fuel IH]; intros pos H; simpl in H.
  - destruct (Re.match_here r w pos Some) as [e|] eqn:E; [|done].
    injection H as <-. simpl. repeat split; [lia.. | done | intros; lia].
  - destruct (Re.match_here r w pos Some) as [e|] eqn:E.
    + injection H as <-. simpl. repeat split; [lia.. | done | intros; lia].
    + apply IH in H as (Hs & Hr & Hm & Hlow).
      repeat split; [done | lia.. | done |].
      intros j Hj. destruct (decide (j = pos)) as [->|]; [done|].
      apply Hlow. lia.
Qed.

Lemma search_at_None (r : Re.regex) (w : str) (pos fuel : nat) :
  Re.search_at r w pos fuel = None ->
  forall j, (pos <= j <= pos + fuel)%nat -> Re.match_here r w j Some = None.
Proof.
  revert pos. induction fuel as [|fuel IH]; intros pos H j Hj; simpl in H.
  - destruct (Re.match_here r w pos Some) eqn:E; [done|].
    by replace j with pos by lia.
  - destruct (Re.match_here r w pos Some) eqn:E; [done|].
    destruct (decide (j = pos)) as [->|]; [done|].
    apply (IH _ H). lia.
Qed.

(** The bounds of a match lie in the searched string. *)
Lemma search_bounds (r : Re.regex) (w : str) (m : Re.Match) :
  Re.search r w = Some m ->
  0 <= Re.start m <= Re.end' m /\ Re.end' m <= len w /\ Re.string_ m = w.
Proof.
  unfold Re.search. intros H.
  apply search_at_Some in H as (Hs & Hr & Hm & _).
  apply match_here_bounds in Hm as (e & He & [= ->]); [|lia].
  unfold Re.start, Re.end', len. repeat split; [lia.. | done].
Qed.

(** What follows the left boundary in [postal_pattern]: the code, then a
    character that is not a digit or the end. *)
Lemma postal_tail_Some (code w : str) (p e : nat) :
  (p <= length w)%nat ->
  Re.match_here
    (Re.Seq (Re.Group (Re.Lit code))
       (Re.Group (Re.Alt (Re.Class Re.non_digit) Re.Eol))) w p Some = Some e ->
  occurs_at code w p
  /\ digit_after w (p + length code) = false
  /\ (p + length code <= e <= S (p + length code))%nat
  /\ (e <= length w)%nat
  /\ (e = p + length code -> Re.at_eol w e = true)%nat.
Proof.
  intros Hp H. simpl in H.
  destruct (startswith code (drop p w)) eqn:Es; [|done].
  apply startswith_prefix in Es.
  split; [by split|].
  unfold digit_after.
  destruct (w !! (p + length code)%nat) as [c|] eqn:Ec.
  - unfold Re.non_digit in H. destruct (Re.is_digit c) eqn:Ed; simpl in H.
    + destruct (Re.at_eol w (p + length code)) eqn:Ee; [|done].
      injection H as <-.
      unfold Re.at_eol in Ee. apply orb_true_iff in Ee as [Ee | Ee].
      * apply bool_decide_eq_true in Ee. apply lookup_lt_Some in Ec. lia.
      * apply andb_true_iff in Ee as [_ Ee].
        apply bool_decide_eq_true in Ee.
        pose proof (eq_trans (eq_sym Ec) Ee) as [= ->]. done.
    + injection H as <-. apply lookup_lt_Some in Ec.
      repeat split; [lia.. |]. intros; lia.
  - destruct (Re.at_eol w (p + length code)) eqn:Ee; [|done].
    injection H as <-. apply lookup_ge_None in Ec.
    apply prefix_length in Es. rewrite length_drop in Es.
    repeat split; [lia.. | done].
Qed.

(** A match of [postal_pattern] at [pos] holds a free occurrence of the
    code, at [pos] when [pos] is the start of the string and otherwise
    one character later. *)
Lemma postal_match_Some (code w : str) (pos e : nat) :
  (pos <= length w)%nat ->
  Re.match_here (postal_pattern code) w pos Some = Some e ->
  exists p, free_occurrence code w p
    /\ (p = S pos \/ (p = pos /\ pos = 0%nat))
    /\ (p + length code <= e <= S (p + length code))%nat
    /\ (e <= length w)%nat
    /\ (e = p + length code -> Re.at_eol w e = true)%nat.
Proof.
  intros Hpos H. unfold postal_pattern in H.
  cbn [Re.match_here] in H.
  destruct (w !! pos) as [c|] eqn:Ec.
  - destruct (Re.non_digit c) eqn:Ed.
    + match type of H with
      | match ?t with _ => _ end = _ => destruct t as [e'|] eqn:Et
      end.
      * injection H as ->.
        apply lookup_lt_Some in Ec as Hlt.
        apply (postal_tail_Some code w (S pos) e) in Et
          as (Ho & Ha & He & Hle & Heol); [|lia].
        exists (S pos). split; [|by auto].
        split; [done|]. split; [|done].
        unfold digit_before. rewrite Ec.
        by apply negb_true_iff in Ed.
      * case_bool_decide as H0; [|done]. subst pos.
        apply (postal_tail_Some code w 0 e) in H
          as (Ho & Ha & He & Hle & Heol); [|lia].
        exists 0%nat. split; [|by auto]. by split.
    + case_bool_decide as H0; [|done]. subst pos.
      apply (postal_tail_Some code w 0 e) in H
        as (Ho & Ha & He & Hle & Heol); [|lia].
      exists 0%nat. split; [|by auto]. by split.
  - case_bool_decide as H0; [|done]. subst pos.
    apply (postal_tail_Some code w 0 e) in H
      as (Ho & Ha & He & Hle & Heol); [|lia].
    exists 0%nat. split; [|by auto]. by split.
Qed.


(** *** The search window of the postal code *)

Lemma digit_adjacent_everywhere_spec (code w : str) :
  digit_adjacent_everywhere code w = true ->
  forall p, occurs_at code w p ->
    digit_before w p = true \/ digit_after w (p + length code) = true.
Proof.
  unfold digit_adjacent_everywhere. rewrite forallb_forall.
  intros H p [Hp Hle].
  specialize (H p). rewrite <- list_elem_of_In, elem_of_seq in H.
  apply startswith_prefix in Hp. rewrite Hp in H. simpl in H.
  apply orb_true_iff. apply H. lia.
Qed.

(** What [find_nearby_postal_code] returns, in terms of the window. *)
Lemma find_nearby_postal_code_Some (text : str) (city : City) (span : Z * Z)
    (found : str) (s e : Z) :
  is_postal_code (format (postal_code city)) = true ->
  find_nearby_postal_code text city span = Some (found, s, e) ->
  exists m : Re.Match,
    Re.search (postal_pattern (format (postal_code city)))
      (search_window text span) = Some m
    /\ found = Re.group m
    /\ s = Z.max 0 (fst span - 10) + Re.start m
    /\ e = Z.max 0 (fst span - 10) + Re.end' m.
Proof.
  intros Hcode H. unfold find_nearby_postal_code in H.
  rewrite compile_postal_pattern in H by done.
  fold (search_window text span) in H.
  destruct (Re.search _ _) as [m|] eqn:Em; [|done].
  injection H as <- <- <-. by exists m.
Qed.

Lemma find_nearby_postal_code_None (text : str) (city : City) (span : Z * Z) :
  is_postal_code (format (postal_code city)) = true ->
  Re.search (postal_pattern (format (postal_code city)))
    (search_window text span) = None ->
  find_nearby_postal_code text city span = None.
Proof.
  intros Hcode H. unfold find_nearby_postal_code.
  rewrite compile_postal_pattern by done.
  fold (search_window text span). by rewrite H.
Qed.

(** C3: when every occurrence of the postal code in the search window
    has a digit right before it or right after it, no postal code is
    linked to the city: [find_nearby_postal_code] returns [None]. *)
Theorem digit_adjacent_code_not_linked (text : str) (city : City)
    (span : Z * Z) :
  is_postal_code (format (postal_code city)) = true ->
  (forall p, occurs_at (format (postal_code city)) (search_window text span) p ->
     digit_before (search_window text span) p = true
     \/ digit_after (search_window text span)
          (p + length (format (postal_code city))) = true) ->
  find_nearby_postal_code text city span = None.
Proof.
  intros Hcode Hadj.
  apply find_nearby_postal_code_None; [done|].
  destruct (Re.search _ _) as [m|] eqn:Em; [|done].
  exfalso. unfold Re.search in Em.
  apply search_at_Some in Em as (_ & Hr & Hm & _).
  apply postal_match_Some in Hm as (p & (Hocc & Hb & Ha) & _); [|lia].
  destruct (Hadj p Hocc); congruence.
Qed.

(** Conversely, the matcher finds a free occurrence: the tail of the
    pattern matches at its position. *)
Lemma postal_tail_complete (code w : str) (p : nat) :
  occurs_at code w p ->
  digit_after w (p + length code) = false ->
  exists e,
    Re.match_here
      (Re.Seq (Re.Group (Re.Lit code))
         (Re.Group (Re.Alt (Re.Class Re.non_digit) Re.Eol))) w p Some = Some e.
Proof.
  intros [Hpre Hle] Ha. simpl.
  apply prefix_length in Hpre as Hlen. rewrite length_drop in Hlen.
  apply startswith_prefix in Hpre. rewrite Hpre.
  unfold digit_after in Ha.
  destruct (w !! (p + length code)%nat) as [c|] eqn:Ec.
  - unfold Re.non_digit. rewrite Ha. simpl. by eauto.
  - apply lookup_ge_None in Ec.
    assert (He : Re.at_eol w (p + length code) = true).
    { unfold Re.at_eol. rewrite bool_decide_eq_true_2 by lia. done. }
    rewrite He. by eauto.
Qed.

(** The pattern matches one position before a free occurrence, or at
    the start of the string for an occurrence that starts there. *)
Lemma postal_match_complete (code w : str) (p : nat) :
  free_occurrence code w p ->
  exists e, Re.match_here (postal_pattern code) w (pred p) Some = Some e.
Proof.
  intros (Hocc & Hb & Ha).
  destruct (postal_tail_complete code w p Hocc Ha) as [e He].
  unfold postal_pattern.
  set (tail := Re.Seq (Re.Group (Re.Lit code)) _) in *.
  cbn [Re.match_here].
  destruct p as [|p']; cbn [pred].
  - match goal with
    | |- exists _, match ?t with _ => _ end = _ => destruct t as [e'|] eqn:E1
    end; [by eauto|].
    rewrite bool_decide_eq_true_2 by done. by eauto.
  - unfold digit_before in Hb. destruct Hocc as [_ Hle].
    destruct (w !! p') as [c|] eqn:Ec.
    + unfold Re.non_digit. rewrite Hb. cbn [negb]. rewrite He. by eauto.
    + apply lookup_ge_None in Ec. lia.
Qed.

Lemma search_postal_complete (code w : str) (p : nat) :
  free_occurrence code w p ->
  exists m, Re.search (postal_pattern code) w = Some m.
Proof.
  intros Hfree. destruct (Re.search (postal_pattern code) w) as [m|] eqn:Em;
    [by eauto|].
  unfold Re.search in Em.
  destruct (postal_match_complete code w p Hfree) as [e He].
  rewrite (search_at_None _ _ _ _ Em (pred p)) in He; [done|].
  destruct Hfree as ([_ Hle] & _). lia.
Qed.

(** A free occurrence of the postal code in the window is linked. *)
Lemma free_occurrence_linked (text : str) (city : City) (span : Z * Z)
    (p : nat) :
  is_postal_code (format (postal_code city)) = true ->
  free_occurrence (format (postal_code city)) (search_window text span) p ->
  exists r, find_nearby_postal_code text city span = Some r.
Proof.
  intros Hcode Hfree.
  destruct (search_postal_complete _ _ _ Hfree) as [m Hm].
  unfold find_nearby_postal_code.
  rewrite compile_postal_pattern by done.
  fold (search_window text span). rewrite Hm. by eauto.
Qed.

(** An occurrence of a run of digits at the start of a string puts a
    digit there. *)
Lemma occurs_at_start_digit (code w : str) :
  is_postal_code code = true -> code <> [] ->
  occurs_at code w 0 -> digit_before w 1 = true.
Proof.
  intros Hcode Hne [Hpre _]. destruct code as [|c code]; [done|].
  simpl in Hcode. apply andb_true_iff in Hcode as [Hc _].
  rewrite drop_0 in Hpre. destruct Hpre as [rest ->].
  unfold digit_before. simpl. exact Hc.
Qed.

(** X4: what is linked is the first free occurrence of the postal code in
    the window. The span returned is the span of the whole match: it
    starts one character before the postal code, unless the postal code
    starts the window, and ends one character after it, unless the
    postal code ends the window. *)
Lemma find_nearby_postal_code_first_occurrence (text : str) (city : City)
    (span : Z * Z) (found : str) (s e : Z) :
  is_postal_code (format (postal_code city)) = true ->
  format (postal_code city) <> [] ->
  find_nearby_postal_code text city span = Some (found, s, e) ->
  exists p : nat,
    free_occurrence (format (postal_code city)) (search_window text span) p
    /\ (forall q, (q < p)%nat ->
          ~ free_occurrence (format (postal_code city))
              (search_window text span) q)
    /\ (s = Z.max 0 (fst span - 10) + Z.of_nat p - 1
        \/ (s = Z.max 0 (fst span - 10) /\ p = 0%nat))
    /\ (e = Z.max 0 (fst span - 10) + Z.of_nat p
            + len (format (postal_code city)) + 1
        \/ (e = Z.max 0 (fst span - 10) + Z.of_nat p
                + len (format (postal_code city))
            /\ Re.at_eol (search_window text span)
                 (p + length (format (postal_code city))) = true)).
Proof.
  intros Hcode Hne H.
  apply find_nearby_postal_code_Some in H as (m & Hm & _ & -> & ->); [|done].
  unfold Re.search in Hm.
  apply search_at_Some in Hm as (_ & Hr & Hm & Hlow).
  apply postal_match_Some in Hm as (p & Hfree & Hp & He & _ & Heol); [|lia].
  exists p. split; [done|]. split; [|split].
  - intros q Hq Hq_free.
    destruct (postal_match_complete _ _ _ Hq_free) as [e' He'].
    destruct q as [|q']; cbn [pred] in He'.
    + destruct (decide (Re.start_ m = 0%nat)) as [Hz | Hnz].
      * destruct Hp as [-> | [-> _]]; [|lia].
        rewrite Hz in Hfree. destruct Hfree as (_ & Hb & _).
        destruct Hq_free as (Hocc & _).
        rewrite (occurs_at_start_digit _ _ Hcode Hne Hocc) in Hb. done.
      * rewrite Hlow in He' by lia. done.
    + rewrite Hlow in He' by lia. done.
  - unfold Re.start. lia.
  - unfold Re.end', len.
    destruct (decide (Re.end_ m = (p + length (format (postal_code city)))%nat))
      as [Heq | Hneq].
    + right. split; [lia|]. rewrite <- Heq. by apply Heol.
    + left. lia.
Qed.

(** *** The locale check *)

Lemma get_locale_no_annotation (ocr_result : OCRResult) :
  text_annotations ocr_result = [] -> get_locale ocr_result = None.
Proof. unfold get_locale. by intros ->. Qed.

Lemma get_locale_first (ocr_result : OCRResult) (a : OCRTextAnnotation)
    (rest : list OCRTextAnnotation) :
  text_annotations ocr_result = a :: rest ->
  get_locale ocr_result = locale a.
Proof.
  unfold get_locale. intros ->.
  destruct (0 <? len (a :: rest)) eqn:E; [done|].
  apply Z.ltb_ge in E. unfold len in E. cbn [length] in E. lia.
Qed.

(** C4: when the locale of the first text annotation is not ["fr"] (or
    there is no annotation, so that the locale is [None]),
    [extract_location] returns three empty lists, whatever the text and
    whatever the gazetteer and the libraries are. *)
Theorem other_locale_empty_result (self : AddressExtractor)
    (ocr_result : OCRResult) :
  get_locale ocr_result <> Some (lit "fr") ->
  extract_location self ocr_result = mkResult [] [] [].
Proof.
  intros H. unfold extract_location. by rewrite bool_decide_eq_true_2.
Qed.

(** *** Address assembly *)

Lemma slice_clip (s : str) (a b : Z) :
  0 <= b ->
  slice s (Some (Z.max 0 a)) (Some (Z.min (len s) b))
  = slice s (Some (clip (len s) a)) (Some (clip (len s) b)).
Proof.
  intros Hb. pose proof (len_nonneg s) as Hn.
  unfold slice, slice_index, clip.
  repeat match goal with
         | |- context [?x <? 0] => destruct (Z.ltb_spec x 0); try lia
         end.
  f_equal; [|f_equal]; lia.
Qed.

(** A linked postal code never starts or ends before the text does,
    whatever the pattern is read as. *)
Lemma find_nearby_postal_code_nonneg (text : str) (city : City)
    (span : Z * Z) (found : str) (s e : Z) :
  find_nearby_postal_code text city span = Some (found, s, e) ->
  0 <= s <= e.
Proof.
  unfold find_nearby_postal_code. intros H.
  destruct (Re.search _ _) as [m|] eqn:Em; [|done].
  injection H as <- <- <-.
  apply search_bounds in Em. lia.
Qed.

Lemma linked_pairs_cons (text : str) (city : City) (s e : Z)
    (found : list (City * Z * Z)) :
  linked_pairs text ((city, s, e) :: found)
  = match find_nearby_postal_code text city (s, e) with
    | Some code => ((city, s, e), code) :: linked_pairs text found
    | None => linked_pairs text found
    end.
Proof.
  unfold linked_pairs. simpl.
  destruct (find_nearby_postal_code text city (s, e)); reflexivity.
Qed.

(** The loop of [extract_location] appends, for each linked pair in
    turn, one entry to each list. *)
Lemma link_loop (text : str) (found : list (City * Z * Z))
    (acc : list ((str * Z * Z) * (str * Z * Z)) * list str) :
  fold_left (link_step text) found acc
  = (fst acc ++ map full_city_of (linked_pairs text found),
     snd acc ++ map (address_of text) (linked_pairs text found)).
Proof.
  revert acc. induction found as [|[[city s] e] found IH]; intros [fc ad].
  - simpl. by rewrite !app_nil_r.
  - cbn [fold_left]. rewrite IH, linked_pairs_cons. unfold link_step.
    destruct (find_nearby_postal_code text city (s, e))
      as [[[g cs] ce]|] eqn:E; [|done].
    apply find_nearby_postal_code_nonneg in E.
    cbn [fst snd map full_city_of address_of].
    rewrite <- !app_assoc. cbn [app].
    unfold address_snippet. cbn [fst snd].
    rewrite slice_clip by lia. done.
Qed.

(** C5: for a French document, [full_cities] and [addresses] hold one
    entry per city match that has a postal code nearby, in order, and
    nothing for the other city matches; the address of a pair is the
    text from [min(city start, code start) - 30] to
    [max(city end, code end) + 30], both clipped to [0, len(text)]. *)
Theorem one_address_per_linked_pair (self : AddressExtractor)
    (ocr_result : OCRResult) :
  get_locale ocr_result = Some (lit "fr") ->
  let text := prepare_text (text_annotations_str_lower ocr_result) in
  let pairs := linked_pairs text (find_city_names self text) in
  full_cities (extract_location self ocr_result) = map full_city_of pairs
  /\ addresses (extract_location self ocr_result) = map (address_of text) pairs.
Proof.
  intros H text pairs. unfold extract_location.
  rewrite bool_decide_eq_false_2 by (intros Hne; by apply Hne).
  fold text. rewrite link_loop. done.
Qed.

(** *** Spans *)

(** The window around a span of the text is a part of the text that
    holds the span. *)
Lemma search_window_bounds (text : str) (s e : Z) :
  span_in text s e ->
  0 <= Z.max 0 (s - 10) <= s
  /\ e <= Z.min (len text) (e + 10) <= len text.
Proof. unfold span_in. lia. Qed.

Lemma search_window_length (text : str) (s e : Z) :
  span_in text s e ->
  len (search_window text (s, e))
  = Z.min (len text) (e + 10) - Z.max 0 (s - 10).
Proof.
  intros H. unfold span_in in H. unfold search_window. cbn [fst snd].
  apply slice_length; lia.
Qed.


Lemma elem_of_linked_pairs (text : str) (found : list (City * Z * Z))
    (c : City * Z * Z) (code : str * Z * Z) :
  (c, code) ∈ linked_pairs text found <->
  c ∈ found
  /\ find_nearby_postal_code text (fst (fst c)) (snd (fst c), snd c) = Some code.
Proof.
  unfold linked_pairs. rewrite list_elem_of_omap. split.
  - intros ([[city s] e] & Hin & H).
    destruct (find_nearby_postal_code text city (s, e)) as [code'|] eqn:E;
      [|done].
    injection H as <- <-. by split.
  - intros [Hin H]. exists c. split; [done|].
    destruct c as [[city s] e]. cbn [fst snd] in H. by rewrite H.
Qed.


(** *** Text preparation *)

Lemma prepare_text_unfold (text : str) :
  prepare_text text
  = normalize_chars (slice text None (Some (find text (lit "||")))).
Proof. reflexivity. Qed.

Lemma normalize_chars_length (text : str) :
  length (normalize_chars text) = length (flat_map base_chars text).
Proof.
  unfold normalize_chars.
  by rewrite !replace_length, remove_accents_flat_map.
Qed.

(** With the marker in the text, the text before its first occurrence is
    prepared. *)
Lemma prepare_text_marker (text : str) (k : nat) :
  find text (lit "||") = Z.of_nat k ->
  prepare_text text = normalize_chars (take k text).
Proof.
  intros Hk. rewrite prepare_text_unfold, Hk.
  destruct (find_spec text (lit "||")) as [[H _] | (k' & H & [_ Hle] & _)];
    [lia|].
  rewrite slice_prefix by (unfold len; lia).
  by rewrite Nat2Z.id.
Qed.

(** Without the marker, [find] returns [-1] and the slice [text[:-1]]
    drops the last character. *)
Lemma prepare_text_no_marker (text : str) :
  find text (lit "||") = -1 ->
  prepare_text text = normalize_chars (removelast text).
Proof.
  intros H. by rewrite prepare_text_unfold, H, slice_minus_one.
Qed.

Lemma french_base_chars (c : char) :
  french_tables -> Unicode.french_letter c = true ->
  length (base_chars c) = 1%nat.
Proof.
  intros Ht Hc. destruct (Ht c Hc) as [Hd Hm].
  unfold base_chars. rewrite Hd.
  rewrite <- (french_letter_base c Hc).
  clear Hd. induction Hm as [|d l Hd Hm IH]; [done|].
  rewrite !filter_cons, Hd.
  destruct (decide (Unicode.french_combining d = 0%N)); simpl; by rewrite IH.
Qed.

(** On French text the last two steps keep the length: one character
    for each character. *)
Lemma normalize_chars_french_length (text : str) :
  french_tables ->
  forallb Unicode.french_letter text = true ->
  length (normalize_chars text) = length text.
Proof.
  intros Ht Htext. rewrite normalize_chars_length.
  induction text as [|c text IH]; [done|].
  simpl in Htext. apply andb_true_iff in Htext as [Hc Htext].
  simpl. rewrite length_app, french_base_chars, IH by done. done.
Qed.

(** On French text, the prepared text is as long as the text that the
    first step keeps. *)
Lemma prepare_text_french_length (text : str) :
  french_tables ->
  forallb Unicode.french_letter text = true ->
  len (prepare_text text)
  = len (slice text None (Some (find text (lit "||")))).
Proof.
  intros Ht Htext. rewrite prepare_text_unfold. unfold len. f_equal.
  apply normalize_chars_french_length; [done|].
  apply forallb_forall. intros c Hc.
  rewrite forallb_forall in Htext. apply Htext.
  unfold slice in Hc. rewrite <- list_elem_of_In in *.
  by apply subseteq_take, subseteq_drop in Hc.
Qed.

(** C10, amended: for a text without the marker ["||"], [prepare_text]
    returns the normalized text of the input minus its last character
    (the upper bound of the slice is [-1]). This differs from the
    normalized whole text whenever accent stripping leaves something of
    the last character; for the empty text, and for a text that ends in
    a combining mark, the two coincide. *)
Theorem prepare_text_drops_last_char (text : str) :
  find text (lit "||") = -1 ->
  prepare_text text = normalize_chars (removelast text)
  /\ (forall c, last text = Some c -> base_chars c <> [] ->
        prepare_text text <> normalize_chars text)
  /\ (forall c, last text = Some c -> base_chars c = [] ->
        prepare_text text = normalize_chars text)
  /\ (text = [] -> prepare_text text = normalize_chars text).
Proof.
  intros H. pose proof (prepare_text_no_marker text H) as Hp.
  split; [done|].
  assert (Hsplit : forall c, last text = Some c ->
            text = removelast text ++ [c]).
  { intros c Hc. destruct (decide (text = [])) as [->|Hne]; [done|].
    rewrite (app_removelast_last c Hne) at 1. f_equal. f_equal.
    clear -Hc. induction text as [|a [|b text] IH]; [done| |].
    - simpl in Hc. by injection Hc as ->.
    - apply IH. exact Hc. }
  repeat split.
  - intros c Hc Hbase Heq. rewrite Hp in Heq.
    apply (f_equal length) in Heq.
    rewrite !normalize_chars_length in Heq.
    rewrite (Hsplit c Hc) in Heq at 2.
    rewrite flat_map_app, length_app in Heq. simpl in Heq.
    rewrite app_nil_r in Heq.
    destruct (base_chars c); [done | simpl in Heq; lia].
  - intros c Hc Hbase. rewrite Hp.
    unfold normalize_chars. f_equal. f_equal.
    rewrite (Hsplit c Hc) at 2.
    rewrite !remove_accents_flat_map, flat_map_app. simpl.
    by rewrite Hbase, !app_nil_r.
  - intros ->. by rewrite Hp.
Qed.

(** *** The gazetteer loader *)

Lemma for_each_Return {A B} (f : A -> result B) (l : list A) (bs : list B) :
  for_each f l = Return bs <-> Forall2 (fun a b => f a = Return b) l bs.
Proof.
  revert bs. induction l as [|a l IH]; intros bs; simpl.
  - split.
    + intros [= <-]. constructor.
    + intros H. by inversion H.
  - split.
    + destruct (f a) as [b|e] eqn:Ea; simpl; [|done].
      destruct (for_each f l) as [bs'|e] eqn:El; simpl; [|done].
      intros [= <-]. constructor; [done | by apply IH].
    + intros H. inversion H as [|? b ? bs' Ha Hl]; subst.
      rewrite Ha. simpl. apply IH in Hl. by rewrite Hl.
Qed.

Lemma for_each_Raise {A B} (f : A -> result B) (l : list A) (e : exn) :
  for_each f l = Raise e -> exists a, a ∈ l /\ f a = Raise e.
Proof.
  induction l as [|a l IH]; simpl; [done|].
  destruct (f a) as [b|e'] eqn:Ea; simpl.
  - destruct (for_each f l) as [bs|e'] eqn:El; simpl; [done|].
    intros [= ->]. destruct (IH eq_refl) as (a' & Hin & Ha').
    exists a'. split; [by apply list_elem_of_further | done].
  - intros [= ->]. exists a. split; [apply list_elem_of_here | done].
Qed.

(** One element that raises is enough for the loop to raise. *)
Lemma for_each_raises {A B} (f : A -> result B) (l : list A) (a : A) (e : exn) :
  a ∈ l -> f a = Raise e -> exists e', for_each f l = Raise e'.
Proof.
  intros Hin Ha. destruct (for_each f l) as [bs|e'] eqn:El; [|by eauto].
  apply for_each_Return in El.
  apply list_elem_of_lookup in Hin as [i Hi].
  destruct (Forall2_lookup_l _ _ _ _ _ El Hi) as (b & _ & Hb). congruence.
Qed.

Lemma set_of_Return (l : list City) (acc r : list (City_key * City)) :
  set_inv acc ->
  set_of l acc = Return r ->
  set_inv r
  /\ (forall kc, kc ∈ r <-> kc ∈ acc \/ (kc ∈ r /\ kc.2 ∈ l /\ kc.1 ∉ acc.*1))
  /\ (forall c, c ∈ l -> exists k, city_key c = Some k /\ k ∈ r.*1)
  /\ (forall k, k ∈ acc.*1 -> k ∈ r.*1).
Proof.
  revert acc. induction l as [|c l IH]; intros acc Hinv H; simpl in H.
  - injection H as <-. split; [done|]. split; [|split].
    + intros kc. split; [intros ?; by left | by intros [? | (? & _)]].
    + intros c Hc. by apply elem_of_nil in Hc.
    + done.
  - destruct (city_key c) as [k|] eqn:Ek; [|done].
    set (acc' := if bool_decide (k ∈ acc.*1) then acc else acc ++ [(k, c)]) in H.
    assert (Hinv' : set_inv acc').
    { unfold acc'. case_bool_decide as Hk; [done|].
      destruct Hinv as [Hnd Hkeys]. split.
      - rewrite fmap_app. apply NoDup_app. split; [done|]. split.
        + intros x Hx Hx'. apply list_elem_of_singleton in Hx'. by subst.
        + apply NoDup_singleton.
      - intros k' c' Hin. apply elem_of_app in Hin as [Hin | Hin]; [by eauto|].
        apply list_elem_of_singleton in Hin. by injection Hin as -> ->. }
    assert (Hk' : k ∈ acc'.*1).
    { unfold acc'. case_bool_decide; [done|].
      rewrite fmap_app. apply elem_of_app. right. by apply list_elem_of_singleton. }
    assert (Hsub : forall x, x ∈ acc -> x ∈ acc').
    { intros x Hx. unfold acc'. case_bool_decide; [done|].
      apply elem_of_app. by left. }
    assert (Hnew : forall x, x ∈ acc' -> x ∈ acc \/ (x = (k, c) /\ k ∉ acc.*1)).
    { intros x. unfold acc'. case_bool_decide; [by left|].
      intros Hx. apply elem_of_app in Hx as [Hx | Hx]; [by left|].
      apply list_elem_of_singleton in Hx. by right. }
    destruct (IH acc' Hinv' H) as (Hr & Hmem & Hall & Hkeep).
    split; [done|]. split; [|split].
    + intros kc. split.
      * intros Hkc. apply Hmem in Hkc as Hkc'.
        destruct Hkc' as [Hkc' | (_ & Hl & Hfresh)].
        -- apply Hnew in Hkc' as [? | [-> Hfresh]]; [by left|].
           right. split; [done|]. split; [apply list_elem_of_here | done].
        -- right. split; [done|]. split; [by apply list_elem_of_further|].
           intros Hin. apply Hfresh.
           apply list_elem_of_fmap in Hin as (x & -> & Hx).
           apply list_elem_of_fmap. exists x. split; [done | by apply Hsub].
      * intros [Hkc | (Hkc & _)]; [|done].
        apply Hmem. left. by apply Hsub.
    + intros c' Hc'. apply elem_of_cons in Hc' as [-> | Hc']; [|by apply Hall].
      exists k. split; [done | by apply Hkeep].
    + intros k' Hin. apply Hkeep.
      apply list_elem_of_fmap in Hin as (x & -> & Hx).
      apply list_elem_of_fmap. exists x. split; [done | by apply Hsub].
Qed.

(** [set] raises exactly when some city cannot be hashed. *)
Lemma set_of_Raise (l : list City) (acc : list (City_key * City)) (e : exn) :
  set_of l acc = Raise e ->
  e = TypeError /\ exists c, c ∈ l /\ city_key c = None.
Proof.
  revert acc. induction l as [|c l IH]; intros acc H; simpl in H; [done|].
  destruct (city_key c) as [k|] eqn:Ek.
  - apply IH in H as (-> & c' & Hin & Hc').
    split; [done|]. exists c'. split; [by apply list_elem_of_further | done].
  - injection H as <-. split; [done|].
    exists c. split; [apply list_elem_of_here | done].
Qed.

Lemma set_of_hashable (l : list City) (acc : list (City_key * City)) :
  Forall (fun c => is_Some (city_key c)) l ->
  exists r, set_of l acc = Return r.
Proof.
  intros H. destruct (set_of l acc) as [r|e] eqn:E; [by eauto|].
  apply set_of_Raise in E as (_ & c & Hin & Hc).
  rewrite Forall_forall in H. destruct (H c Hin) as [k Hk]. congruence.
Qed.

Lemma load_cities_fr_Return (source : option (list Byte.byte))
    (l : list City) :
  load_cities_fr source = Return l ->
  exists json_data records found unique,
    source_json source = Some json_data
    /\ Obj.iter json_data = Return records
    /\ for_each city_of_item records = Return found
    /\ set_of found [] = Return unique
    /\ l = set_order unique.*2.
Proof.
  unfold load_cities_fr, source_json. fold (stream_of source).
  destruct (gzip_read (stream_of source)) as [content|]; simpl; [|done].
  destruct (json_load content) as [json_data|]; simpl; [|done].
  destruct (Obj.iter json_data) as [records|] eqn:Ei; simpl; [|done].
  destruct (for_each city_of_item records) as [found|] eqn:Ef; simpl; [|done].
  destruct (set_of found []) as [unique|] eqn:Es; simpl; [|done].
  intros [= <-]. by exists json_data, records, found, unique.
Qed.

Lemma set_inv_keys (r : list (City_key * City)) :
  set_inv r -> city_key <$> r.*2 = Some <$> r.*1.
Proof.
  intros [_ H]. induction r as [|[k c] r IH]; [done|].
  simpl. rewrite (H k c) by apply list_elem_of_here. f_equal.
  apply IH. intros k' c' Hin. apply H. by apply list_elem_of_further.
Qed.

Lemma set_inv_nil : set_inv [].
Proof. split; [constructor | intros k c H; by apply elem_of_nil in H]. Qed.

Lemma NoDup_all_equal {A} (l : list A) (a : A) :
  NoDup l -> (forall x, x ∈ l -> x = a) -> (length l <= 1)%nat.
Proof.
  intros Hnd Hall. destruct l as [|x [|y l]]; simpl; [lia..|].
  exfalso. apply NoDup_cons in Hnd as [Hx _]. apply Hx.
  rewrite (Hall x), <- (Hall y).
  - apply list_elem_of_here.
  - apply list_elem_of_further, list_elem_of_here.
  - apply list_elem_of_here.
Qed.

(** C8: the loaded list holds no two cities equal on their three fields
    (equal keys); it holds the cities of the records, each once; and two
    records whose cities are equal, as are those of two identical
    records or of two records that differ outside the fields of [City],
    give a list of one city. *)
Theorem loaded_cities_distinct (source : option (list Byte.byte))
    (l : list City) :
  load_cities_fr source = Return l ->
  NoDup (city_key <$> l)
  /\ NoDup l
  /\ (forall records found,
        source_json source = Some (PList records) ->
        for_each city_of_item records = Return found ->
        (forall c, c ∈ l -> c ∈ found)
        /\ (forall c, c ∈ found ->
              exists c', c' ∈ l /\ city_key c' = city_key c))
  /\ (forall r1 r2 c1 c2,
        source_json source = Some (PList [r1; r2]) ->
        city_of_item r1 = Return c1 ->
        city_of_item r2 = Return c2 ->
        city_key c1 = city_key c2 ->
        length l = 1%nat).
Proof.
  intros H.
  apply load_cities_fr_Return in H
    as (json_data & records & found & unique & Hj & Hi & Hf & Hs & ->).
  destruct (set_of_Return _ _ _ set_inv_nil Hs) as (Hinv & Hmem & Hall & _).
  assert (Hkeys : city_key <$> set_order unique.*2 ≡ₚ Some <$> unique.*1).
  { rewrite set_order_permutation. by rewrite set_inv_keys. }
  assert (Hnd : NoDup (city_key <$> set_order unique.*2)).
  { rewrite Hkeys. apply NoDup_fmap; [apply _|]. by destruct Hinv. }
  assert (Hrep : forall records' found',
            source_json source = Some (PList records') ->
            for_each city_of_item records' = Return found' ->
            (forall c, c ∈ set_order unique.*2 -> c ∈ found')
            /\ (forall c, c ∈ found' ->
                  exists c', c' ∈ set_order unique.*2
                    /\ city_key c' = city_key c)).
  { intros records' found' Hj' Hf'.
    rewrite Hj in Hj'. injection Hj' as ->. simpl in Hi.
    injection Hi as <-. rewrite Hf in Hf'. injection Hf' as <-.
    split.
    - intros c Hc. rewrite set_order_permutation in Hc.
      apply list_elem_of_fmap in Hc as ([k c'] & -> & Hin).
      apply Hmem in Hin as [Hin | (_ & Hin & _)]; [|done].
      by apply elem_of_nil in Hin.
    - intros c Hc. destruct (Hall c Hc) as (k & Hk & Hin).
      apply list_elem_of_fmap in Hin as ([k' c'] & -> & Hin).
      exists c'. split.
      + rewrite set_order_permutation.
        apply list_elem_of_fmap. by exists (k', c').
      + destruct Hinv as [_ Hinv]. rewrite Hk. by apply Hinv. }
  split; [done|]. split; [by eapply NoDup_fmap_1|]. split; [done|].
  intros r1 r2 c1 c2 Hj' Hc1 Hc2 Heq.
  assert (Hf' : for_each city_of_item [r1; r2] = Return [c1; c2]).
  { simpl. by rewrite Hc1, Hc2. }
  destruct (Hrep _ _ Hj' Hf') as [Hsub Hsup].
  assert (Hle : (length (city_key <$> set_order unique.*2) <= 1)%nat).
  { apply (NoDup_all_equal _ (city_key c1)); [done|].
    intros x Hx. apply list_elem_of_fmap in Hx as (c & -> & Hc).
    apply Hsub in Hc.
    apply elem_of_cons in Hc as [-> | Hc]; [done|].
    apply list_elem_of_singleton in Hc as ->. done. }
  rewrite length_fmap in Hle.
  destruct (Hsup c1) as (c' & Hc' & _); [apply list_elem_of_here|].
  destruct (set_order unique.*2); [by apply elem_of_nil in Hc'|].
  simpl in *. lia.
Qed.

Lemma city_of_item_missing_field (record : pyval) :
  has_required_fields record = false ->
  exists e, city_of_item record = Raise e.
Proof.
  unfold has_required_fields, city_of_item, Obj.getitem, Obj.get.
  intros H.
  destruct record as [| | | | |m]; simpl; try by eauto.
  destruct (Obj.lookup_item (lit "fields") m) as [fields|]; simpl;
    [|by eauto].
  destruct fields as [| | | | |f]; simpl; try by eauto.
  apply andb_false_iff in H.
  destruct (tuple_unless_none _) as [coords|]; simpl; [|by eauto].
  destruct (Obj.lookup_item (lit "nom_de_la_commune") f) as [commune|] eqn:En;
    simpl; [|by eauto].
  destruct commune; simpl; try by eauto.
  destruct (Obj.lookup_item (lit "code_postal") f) as [code|] eqn:Ec;
    simpl; [|by eauto].
  destruct H as [H | H]; apply bool_decide_eq_false in H;
    exfalso; apply H; by eauto.
Qed.

Lemma mapM_hash_key (t : list pyval) :
  forallb hashable t = true -> is_Some (mapM Obj.hash_key t).
Proof.
  induction t as [|v t IH]; simpl; [by eauto|].
  intros H. apply andb_true_iff in H as [Hv Ht].
  apply bool_decide_eq_true in Hv as [k Hk].
  destruct (IH Ht) as [ks Hks].
  exists (k :: ks). by rewrite Hk, Hks.
Qed.

Lemma city_of_item_usable (record : pyval) :
  usable_record record = true ->
  exists c, city_of_item record = Return c /\ is_Some (city_key c).
Proof.
  unfold usable_record, city_of_item, Obj.getitem, Obj.get.
  intros H.
  destruct record as [| | | | |m]; try done. simpl.
  destruct (Obj.lookup_item (lit "fields") m) as [fields|]; [|done].
  destruct fields as [| | | | |f]; try done. simpl.
  apply andb_true_iff in H as [H Hcoords].
  apply andb_true_iff in H as [Hname Hcode].
  destruct (Obj.lookup_item (lit "nom_de_la_commune") f) as [commune|];
    [|done].
  destruct commune as [| | |s| |]; try done.
  destruct (Obj.lookup_item (lit "code_postal") f) as [code|]; [|done].
  apply bool_decide_eq_true in Hcode as [k Hk].
  assert (Hc : exists coords,
            tuple_unless_none
              (default PNone (Obj.lookup_item (lit "coordonnees_gps") f))
            = Return coords
            /\ is_Some (match coords with
                        | None => Some None
                        | Some xs => Some <$> mapM Obj.hash_key xs
                        end)).
  { unfold tuple_unless_none.
    destruct (Obj.lookup_item (lit "coordonnees_gps") f) as [v|]; simpl;
      [|by eauto].
    destruct v; simpl in *; try by eauto.
    all: match goal with
         | |- context [Return (Some ?t)] =>
             exists (Some t); split; [done|];
             destruct (mapM_hash_key t Hcoords) as [ks ->]; by eauto
         end. }
  destruct Hc as (coords & -> & [kc Hkc]). simpl.
  eexists. split; [done|].
  unfold city_key. simpl. rewrite Hk. simpl. rewrite Hkc. simpl. by eauto.
Qed.

(** A record without coordinates is loaded with [None] for them. *)
Lemma city_of_item_no_coordinates (f : list (str * pyval)) (s : str)
    (code : pyval) :
  Obj.lookup_item (lit "coordonnees_gps") f = None ->
  Obj.lookup_item (lit "nom_de_la_commune") f = Some (PStr s) ->
  Obj.lookup_item (lit "code_postal") f = Some code ->
  city_of_item (PDict [(lit "fields", PDict f)])
  = Return (mkCity (lower s) code None).
Proof.
  intros Hc Hn Hp. unfold city_of_item, Obj.getitem, Obj.get. simpl.
  by rewrite Hc, Hn, Hp.
Qed.

(** C9, amended: the load raises when the stream is not a gzip stream,
    when its content is not JSON, and when a record lacks the commune
    name or the postal code; it returns a list when every record of the
    array is usable, and a record without coordinates is usable. When it
    raises there is no list at all. A record that holds the required
    fields with values of the wrong type makes it raise too. *)
Theorem load_failures (source : option (list Byte.byte)) :
  (gzip_read (stream_of source) = None ->
     load_cities_fr source = Raise BadGzipFile)
  /\ (forall content,
        gzip_read (stream_of source) = Some content ->
        json_load content = None ->
        load_cities_fr source = Raise JSONDecodeError)
  /\ (forall json_data records record,
        source_json source = Some json_data ->
        Obj.iter json_data = Return records ->
        record ∈ records ->
        has_required_fields record = false ->
        exists e, load_cities_fr source = Raise e)
  /\ (forall records,
        source_json source = Some (PList records) ->
        forallb usable_record records = true ->
        exists l, load_cities_fr source = Return l)
  /\ (forall f s code,
        Obj.lookup_item (lit "coordonnees_gps") f = None ->
        Obj.lookup_item (lit "nom_de_la_commune") f = Some (PStr s) ->
        Obj.lookup_item (lit "code_postal") f = Some code ->
        city_of_item (PDict [(lit "fields", PDict f)])
        = Return (mkCity (lower s) code None)).
Proof.
  unfold load_cities_fr, source_json. fold (stream_of source).
  split; [|split; [|split; [|split]]].
  - by intros ->.
  - intros content -> H. simpl. by rewrite H.
  - intros json_data records record Hj Hi Hin Hmiss.
    destruct (gzip_read (stream_of source)) as [content|]; [|done].
    simpl in Hj. simpl. rewrite Hj. simpl. rewrite Hi. simpl.
    destruct (city_of_item_missing_field record Hmiss) as [e He].
    destruct (for_each_raises _ _ _ _ Hin He) as [e' ->]. simpl. by eauto.
  - intros records Hj Hok.
    destruct (gzip_read (stream_of source)) as [content|]; [|done].
    simpl in Hj. simpl. rewrite Hj. simpl.
    assert (Hf : exists found,
              for_each city_of_item records = Return found
              /\ Forall (fun c => is_Some (city_key c)) found).
    { clear Hj. induction records as [|r records IH]; simpl.
      - exists []. by split.
      - simpl in Hok. apply andb_true_iff in Hok as [Hr Hok].
        destruct (city_of_item_usable r Hr) as (c & -> & Hc).
        destruct (IH Hok) as (found & -> & Hfound). simpl.
        exists (c :: found). split; [done | by constructor]. }
    destruct Hf as (found & -> & Hfound). simpl.
    destruct (set_of_hashable found [] Hfound) as [r ->]. simpl. by eauto.
  - apply city_of_item_no_coordinates.
Qed.

(** *** Further properties of the postal code search *)

(** The window of a span of the text, as a part of the text. *)
Lemma search_window_take_drop (text : str) (s0 s1 : Z) :
  span_in text s0 s1 ->
  search_window text (s0, s1)
  = take (Z.to_nat (Z.min (len text) (s1 + 10) - Z.max 0 (s0 - 10)))
      (drop (Z.to_nat (Z.max 0 (s0 - 10))) text).
Proof.
  intros H. unfold span_in in H. unfold search_window. cbn [fst snd].
  apply slice_within; lia.
Qed.

(** The span of a linked postal code is a span of the search window. *)
Lemma find_nearby_postal_code_in_window (text : str) (city : City) (s0 s1 : Z)
    (found : str) (s e : Z) :
  span_in text s0 s1 ->
  find_nearby_postal_code text city (s0, s1) = Some (found, s, e) ->
  Z.max 0 (s0 - 10) <= s /\ s <= e /\ e <= Z.min (len text) (s1 + 10).
Proof.
  intros Hspan H. unfold find_nearby_postal_code in H.
  fold (search_window text (s0, s1)) in H.
  destruct (Re.search _ _) as [m|] eqn:Em; [|done].
  injection H as <- <- <-. cbn [fst snd].
  apply search_bounds in Em as (Hs & He & _).
  rewrite search_window_length in He by done.
  unfold span_in in Hspan. lia.
Qed.

(** X1: the postal code linked to a city found in the text lies within ten
    characters of the city name, whatever the pattern is read as: its
    span is a span of the search window. *)
Theorem linked_code_within_distance (text : str) (city : City) (s0 s1 : Z)
    (found : str) (s e : Z) :
  span_in text s0 s1 ->
  find_nearby_postal_code text city (s0, s1) = Some (found, s, e) ->
  Z.max 0 (s0 - 10) <= s /\ s <= e /\ e <= Z.min (len text) (s1 + 10)
  /\ s0 - 10 <= s /\ e <= s1 + 10.
Proof.
  intros Hspan H.
  pose proof (find_nearby_postal_code_in_window _ _ _ _ _ _ _ Hspan H).
  unfold span_in in Hspan. lia.
Qed.

(** X2: the string returned with a linked span is the text of that span. *)
Theorem linked_text_is_slice (text : str) (city : City) (s0 s1 : Z)
    (found : str) (s e : Z) :
  span_in text s0 s1 ->
  find_nearby_postal_code text city (s0, s1) = Some (found, s, e) ->
  found = slice text (Some s) (Some e).
Proof.
  intros Hspan H. unfold find_nearby_postal_code in H.
  fold (search_window text (s0, s1)) in H.
  destruct (Re.search _ _) as [m|] eqn:Em; [|done].
  injection H as <- <- <-. cbn [fst snd].
  apply search_bounds in Em as (Hs & He & Hw).
  pose proof (search_window_length text s0 s1 Hspan) as Hlen.
  rewrite Hlen in He.
  unfold Re.group. rewrite Hw, (search_window_take_drop _ _ _ Hspan).
  unfold span_in in Hspan. unfold Re.start, Re.end' in *.
  rewrite slice_within by lia.
  set (lo := Z.max 0 (s0 - 10)) in *.
  set (hi := Z.min (len text) (s1 + 10)) in *.
  rewrite skipn_firstn_comm, take_take, drop_drop.
  f_equal; [lia|]. f_equal. lia.
Qed.

(** X3: a postal code made of digits is linked exactly when the window
    holds an occurrence of it with no digit right before or after. *)
Theorem not_linked_iff_no_free_occurrence (text : str) (city : City)
    (span : Z * Z) :
  is_postal_code (format (postal_code city)) = true ->
  find_nearby_postal_code text city span = None
  <-> forall p, ~ free_occurrence (format (postal_code city))
                    (search_window text span) p.
Proof.
  intros Hcode. split.
  - intros Hnone p Hfree.
    destruct (search_postal_complete _ _ _ Hfree) as [m Hm].
    unfold find_nearby_postal_code in Hnone.
    rewrite compile_postal_pattern in Hnone by done.
    fold (search_window text span) in Hnone. by rewrite Hm in Hnone.
  - intros Hno.
    destruct (find_nearby_postal_code text city span) as [[[g s] e]|] eqn:E;
      [|done].
    exfalso.
    apply find_nearby_postal_code_Some in E as (m & Hm & _); [|done].
    unfold Re.search in Hm.
    apply search_at_Some in Hm as (_ & Hr & Hm & _).
    apply postal_match_Some in Hm as (p & Hfree & _); [|lia].
    by apply (Hno p).
Qed.

(** *** Further properties of the extraction *)

Lemma linked_pairs_length (text : str) (found : list (City * Z * Z)) :
  (length (linked_pairs text found) <= length found)%nat.
Proof.
  induction found as [|[[city s] e] found IH]; [done|].
  rewrite linked_pairs_cons.
  destruct (find_nearby_postal_code text city (s, e)); simpl; lia.
Qed.

(** The result of [extract_location] in terms of the city matches and
    the linked pairs. *)
Lemma extract_location_active (self : AddressExtractor)
    (ocr_result : OCRResult) :
  get_locale ocr_result = Some (lit "fr") ->
  extract_location self ocr_result
  = let text := prepare_text (text_annotations_str_lower ocr_result) in
    let found := find_city_names self text in
    mkResult (map (fun c => (name (fst (fst c)), snd (fst c), snd c)) found)
      (map full_city_of (linked_pairs text found))
      (map (address_of text) (linked_pairs text found)).
Proof.
  intros H. unfold extract_location.
  rewrite bool_decide_eq_false_2 by (intros Hne; by apply Hne).
  cbv zeta. by rewrite link_loop.
Qed.

Lemma extract_location_cases (self : AddressExtractor)
    (ocr_result : OCRResult) :
  extract_location self ocr_result = mkResult [] [] []
  \/ get_locale ocr_result = Some (lit "fr").
Proof.
  destruct (decide (get_locale ocr_result = Some (lit "fr"))) as [H | H];
    [by right | left].
  unfold extract_location. by rewrite bool_decide_eq_true_2.
Qed.

(** X5: for every document, [full_cities] and [addresses] have the same
    number of entries, and [cities] has at least as many. *)
Theorem result_lengths (self : AddressExtractor) (ocr_result : OCRResult) :
  length (full_cities (extract_location self ocr_result))
  = length (addresses (extract_location self ocr_result))
  /\ (length (addresses (extract_location self ocr_result))
      <= length (cities (extract_location self ocr_result)))%nat.
Proof.
  destruct (extract_location_cases self ocr_result) as [-> | H];
    [simpl; lia|].
  rewrite (extract_location_active _ _ H). cbv zeta. cbn [full_cities addresses cities].
  rewrite !length_map. split; [done|]. apply linked_pairs_length.
Qed.

(** X6: every city of [full_cities] is one of [cities], with the same span. *)
Theorem full_cities_among_cities (self : AddressExtractor)
    (ocr_result : OCRResult) (code n : str * Z * Z) :
  (code, n) ∈ full_cities (extract_location self ocr_result) ->
  n ∈ cities (extract_location self ocr_result).
Proof.
  destruct (extract_location_cases self ocr_result) as [-> | H].
  { intros Hin. by apply elem_of_nil in Hin. }
  rewrite (extract_location_active _ _ H). cbv zeta. cbn [full_cities cities].
  intros Hin.
  apply list_elem_of_fmap in Hin as ([[[c s] e] code'] & Heq & Hin).
  cbn [full_city_of] in Heq. injection Heq as -> ->.
  apply elem_of_linked_pairs in Hin as [Hin _].
  apply list_elem_of_fmap. by exists (c, s, e).
Qed.



(** *** Further properties of the text preparation *)

(** What accent stripping leaves of a letter of French is its base
    letter. *)
Lemma french_letter_base_char (c : char) :
  Unicode.french_letter c = true ->
  filter (fun d => Unicode.french_combining d = 0%N)
    (Unicode.french_decomposition c) = [Unicode.french_base c].
Proof.
  unfold Unicode.french_letter. rewrite !orb_true_iff.
  intros [[H | H] | H].
  - apply N.ltb_lt in H.
    assert (Hd : Unicode.french_decomposition c = [c]).
    { unfold Unicode.french_decomposition, Unicode.french_accented. simpl.
      table_cases lia. done. }
    assert (Hb : Unicode.french_base c = c).
    { unfold Unicode.french_base, Unicode.french_accented. simpl.
      table_cases lia. done. }
    assert (Hc : Unicode.french_combining c = 0%N).
    { unfold Unicode.french_combining, Unicode.french_marks. simpl.
      table_cases lia. done. }
    by rewrite Hd, Hb, filter_cons, decide_True.
  - apply bool_decide_eq_true in H. revert H.
    unfold Unicode.french_decomposition, Unicode.french_base,
      Unicode.french_accented. simpl.
    table_cases ltac:(subst c; intros _; by vm_compute).
    by intros [? ?].
  - apply bool_decide_eq_true in H.
    unfold Unicode.french_ligatures in H.
    repeat (apply elem_of_cons in H as [-> | H]; [by vm_compute|]).
    by apply elem_of_nil in H.
Qed.

Lemma french_base_chars_exact (c : char) :
  french_tables -> Unicode.french_letter c = true ->
  base_chars c = [Unicode.french_base c].
Proof.
  intros Ht Hc. destruct (Ht c Hc) as [Hd Hm].
  unfold base_chars. rewrite Hd.
  rewrite <- (french_letter_base_char c Hc).
  clear Hd. induction Hm as [|d l Hd Hm IH]; [done|].
  rewrite !filter_cons, Hd.
  destruct (decide (Unicode.french_combining d = 0%N)); simpl; by rewrite IH.
Qed.

Lemma remove_accents_french_map (text : str) :
  french_tables ->
  forallb Unicode.french_letter text = true ->
  remove_accents text = map Unicode.french_base text.
Proof.
  intros Ht Htext. rewrite remove_accents_flat_map.
  induction text as [|c text IH]; [done|].
  simpl in Htext. apply andb_true_iff in Htext as [Hc Htext].
  simpl. by rewrite french_base_chars_exact, IH.
Qed.

(** X10: on French text, [remove_accents] replaces each accented letter by
    its base letter and leaves every other character as it is; in
    particular it keeps the length. *)
Theorem remove_accents_french (text : str) :
  french_tables ->
  forallb Unicode.french_letter text = true ->
  remove_accents text = map Unicode.french_base text
  /\ len (remove_accents text) = len text.
Proof.
  intros Ht Htext. rewrite remove_accents_french_map by done.
  split; [done|]. unfold len. by rewrite length_map.
Qed.

(** X12: the prepared text holds no apostrophe and no hyphen. *)
Theorem prepare_text_no_apostrophe_no_hyphen (text : str) (c : char) :
  c ∈ prepare_text text -> c <> 39%N /\ c <> 45%N.
Proof.
  unfold prepare_text, replace. cbv zeta. rewrite map_map.
  intros Hin. apply list_elem_of_fmap in Hin as (x & -> & _).
  destruct (N.eqb_spec x 39) as [-> | Hx]; [by vm_compute|].
  destruct (N.eqb_spec x 45) as [-> | Hx']; [by vm_compute | done].
Qed.

(** The marker that follows a text without vertical bar is found right
    after it. *)
Lemma find_marker_after (a b : str) :
  124%N ∉ a -> find (a ++ lit "||" ++ b) (lit "||") = len a.
Proof.
  intros Ha.
  assert (Hocc : occurs_at (lit "||") (a ++ lit "||" ++ b) (length a)).
  { split; [|rewrite length_app; lia].
    rewrite drop_app_length. by apply prefix_app_r. }
  destruct (find_spec (a ++ lit "||" ++ b) (lit "||"))
    as [[_ Hno] | (k & -> & [Hk _] & Hlow)].
  { by destruct (Hno _ Hocc). }
  unfold len. f_equal.
  destruct (Nat.lt_trichotomy k (length a)) as [Hlt | [-> | Hgt]]; [|done|].
  - exfalso. apply Ha.
    destruct Hk as [rest Hk].
    apply (f_equal (fun l => l !! 0%nat)) in Hk.
    rewrite lookup_drop, Nat.add_0_r, lookup_app_l in Hk by done.
    apply list_elem_of_lookup. exists k. exact Hk.
  - by destruct (Hlow _ Hgt).
Qed.

(** X13: what precedes the marker is prepared, what follows it is dropped:
    for a description without vertical bar, the prepared text is the
    description with accents removed and apostrophes and hyphens
    replaced by spaces. *)
Theorem prepare_text_keeps_description (a b : str) :
  124%N ∉ a ->
  prepare_text (a ++ lit "||" ++ b)
  = replace (replace (remove_accents a) 39%N 32%N) 45%N 32%N.
Proof.
  intros Ha.
  rewrite (prepare_text_marker _ (length a)) by by apply find_marker_after.
  by rewrite take_app_length.
Qed.

(** X14: for a French description without vertical bar the prepared text is
    known character by character, and is as long as the description:
    the offsets of the description are those of the prepared text. *)
Theorem prepare_text_french_description (a b : str) :
  french_tables ->
  forallb Unicode.french_letter a = true ->
  124%N ∉ a ->
  prepare_text (a ++ lit "||" ++ b)
  = replace (replace (map Unicode.french_base a) 39%N 32%N) 45%N 32%N
  /\ len (prepare_text (a ++ lit "||" ++ b)) = len a.
Proof.
  intros Ht Hfr Ha.
  assert (Heq : prepare_text (a ++ lit "||" ++ b)
                = replace (replace (map Unicode.french_base a) 39%N 32%N)
                    45%N 32%N).
  { rewrite (prepare_text_marker _ (length a)) by by apply find_marker_after.
    rewrite take_app_length. unfold normalize_chars.
    by rewrite remove_accents_french_map. }
  split; [done|]. rewrite Heq. unfold len.
  by rewrite !replace_length, length_map.
Qed.

(** *** Further properties of the gazetteer loader *)

Lemma tuple_unless_none_Raise (v : pyval) (e : exn) :
  tuple_unless_none v = Raise e -> e = TypeError.
Proof. destruct v; simpl; congruence. Qed.

(** What a record that is loaded holds. *)
Lemma city_of_item_Return (item : pyval) (c : City) :
  city_of_item item = Return c ->
  exists m f s,
    item = PDict m
    /\ Obj.lookup_item (lit "fields") m = Some (PDict f)
    /\ Obj.lookup_item (lit "nom_de_la_commune") f = Some (PStr s)
    /\ name c = lower s
    /\ Obj.lookup_item (lit "code_postal") f = Some (postal_code c)
    /\ tuple_unless_none
         (default PNone (Obj.lookup_item (lit "coordonnees_gps") f))
       = Return (coordinates c).
Proof.
  unfold city_of_item, Obj.getitem, Obj.get.
  destruct item as [| | | | |m]; simpl; try done.
  destruct (Obj.lookup_item (lit "fields") m) as [fields|] eqn:Ef; simpl;
    [|done].
  destruct fields as [| | | | |f]; simpl; try done.
  destruct (tuple_unless_none _) as [coords|] eqn:Ec; simpl; [|done].
  destruct (Obj.lookup_item (lit "nom_de_la_commune") f) as [commune|] eqn:En;
    simpl; [|done].
  destruct commune as [| | |s| |]; simpl; try done.
  destruct (Obj.lookup_item (lit "code_postal") f) as [code|] eqn:Ep; simpl;
    [|done].
  intros [= <-]. by exists m, f, s.
Qed.

(** The only keys a record can be found to lack. *)
Lemma city_of_item_KeyError (item : pyval) (k : str) :
  city_of_item item = Raise (KeyError k) ->
  has_required_fields item = false
  /\ (k = lit "fields" \/ k = lit "nom_de_la_commune" \/ k = lit "code_postal").
Proof.
  unfold city_of_item, has_required_fields, Obj.getitem, Obj.get.
  destruct item as [| | | | |m]; simpl; try done.
  destruct (Obj.lookup_item (lit "fields") m) as [fields|]; simpl.
  2: { intros [= <-]. by auto. }
  destruct fields as [| | | | |f]; simpl; try done.
  destruct (tuple_unless_none _) as [coords|] eqn:Ec; simpl.
  2: { apply tuple_unless_none_Raise in Ec as ->. done. }
  destruct (Obj.lookup_item (lit "nom_de_la_commune") f) as [commune|]; simpl.
  2: { intros [= <-]. by auto. }
  destruct commune as [| | |s| |]; simpl; try done.
  destruct (Obj.lookup_item (lit "code_postal") f) as [code|]; simpl; [done|].
  intros [= <-]. split; [|by auto].
  first [ done
        | apply andb_false_iff; right; apply bool_decide_eq_false;
          by intros [? ?] ].
Qed.

(** The stages at which the load can raise. *)
Lemma load_cities_fr_Raise (source : option (list Byte.byte)) (e : exn) :
  load_cities_fr source = Raise e ->
  (gzip_read (stream_of source) = None /\ e = BadGzipFile)
  \/ (exists content, gzip_read (stream_of source) = Some content
        /\ json_load content = None /\ e = JSONDecodeError)
  \/ (exists json_data, source_json source = Some json_data
        /\ ((Obj.iter json_data = Raise e /\ e = TypeError)
            \/ exists records, Obj.iter json_data = Return records
                 /\ ((exists record, record ∈ records
                        /\ city_of_item record = Raise e)
                     \/ (exists found,
                           for_each city_of_item records = Return found
                           /\ e = TypeError
                           /\ exists c, c ∈ found /\ city_key c = None)))).
Proof.
  unfold load_cities_fr, source_json. fold (stream_of source).
  destruct (gzip_read (stream_of source)) as [content|]; simpl.
  2: { intros [= <-]. by left. }
  destruct (json_load content) as [json_data|] eqn:Ej; simpl.
  2: { intros [= <-]. right. left. by exists content. }
  intros H. right. right. exists json_data. split; [done|].
  destruct (Obj.iter json_data) as [records|e'] eqn:Ei; simpl in H.
  2: { injection H as ->. left. split; [done|].
       destruct json_data; simpl in Ei; congruence. }
  right. exists records. split; [done|].
  destruct (for_each city_of_item records) as [found|e'] eqn:Ef; simpl in H.
  2: { injection H as ->. left. by apply for_each_Raise. }
  right. exists found. split; [done|].
  destruct (set_of found []) as [unique|e'] eqn:Es; simpl in H; [done|].
  injection H as ->. by apply set_of_Raise in Es.
Qed.

(** X15: a [KeyError] of the load names one of the three keys the loader
    reads without a default, and a record of the dataset lacks it. *)
Theorem load_KeyError_names_required_key (source : option (list Byte.byte))
    (k : str) :
  load_cities_fr source = Raise (KeyError k) ->
  (k = lit "fields" \/ k = lit "nom_de_la_commune" \/ k = lit "code_postal")
  /\ exists json_data records record,
       source_json source = Some json_data
       /\ Obj.iter json_data = Return records
       /\ record ∈ records
       /\ has_required_fields record = false.
Proof.
  intros H. apply load_cities_fr_Raise in H
    as [[_ ?] | [(? & _ & _ & ?) | (json_data & Hj & H)]]; [done..|].
  destruct H as [[_ ?] | (records & Hi & H)]; [done|].
  destruct H as [(record & Hin & Hr) | (? & _ & ? & _)]; [|done].
  apply city_of_item_KeyError in Hr as [Hmiss Hk].
  split; [done|]. by exists json_data, records, record.
Qed.

Lemma set_of_length (l : list City) (acc r : list (City_key * City)) :
  set_of l acc = Return r -> (length r <= length acc + length l)%nat.
Proof.
  revert acc. induction l as [|c l IH]; intros acc H; simpl in H.
  - injection H as <-. lia.
  - destruct (city_key c) as [k|]; [|done].
    apply IH in H. case_bool_decide; [simpl; lia|].
    rewrite length_app in H. simpl in *. lia.
Qed.

(** X16: the gazetteer never holds more cities than the dataset has
    records. *)
Theorem loaded_cities_at_most_records (source : option (list Byte.byte))
    (l : list City) (json_data : pyval) (records : list pyval) :
  load_cities_fr source = Return l ->
  source_json source = Some json_data ->
  Obj.iter json_data = Return records ->
  (length l <= length records)%nat.
Proof.
  intros H Hj Hi.
  apply load_cities_fr_Return in H
    as (json_data' & records' & found & unique & Hj' & Hi' & Hf & Hs & ->).
  rewrite Hj in Hj'. injection Hj' as <-.
  rewrite Hi in Hi'. injection Hi' as <-.
  rewrite set_order_permutation, length_fmap.
  apply set_of_length in Hs. simpl in Hs.
  apply for_each_Return, Forall2_length in Hf. lia.
Qed.

(** X17: every city of the gazetteer is the city of a record: its name is
    the commune name of the record in lower case, its postal code is
    the value of the record as it is, and it has coordinates exactly
    when the record has some that are not [null]. *)
Theorem loaded_city_from_record (source : option (list Byte.byte))
    (l : list City) (json_data : pyval) (records : list pyval) (c : City) :
  load_cities_fr source = Return l ->
  source_json source = Some json_data ->
  Obj.iter json_data = Return records ->
  c ∈ l ->
  exists m f s,
    PDict m ∈ records
    /\ Obj.lookup_item (lit "fields") m = Some (PDict f)
    /\ Obj.lookup_item (lit "nom_de_la_commune") f = Some (PStr s)
    /\ name c = lower s
    /\ Obj.lookup_item (lit "code_postal") f = Some (postal_code c)
    /\ (coordinates c = None
        <-> default PNone (Obj.lookup_item (lit "coordonnees_gps") f) = PNone).
Proof.
  intros H Hj Hi Hc.
  apply load_cities_fr_Return in H
    as (json_data' & records' & found & unique & Hj' & Hi' & Hf & Hs & ->).
  rewrite Hj in Hj'. injection Hj' as <-.
  rewrite Hi in Hi'. injection Hi' as <-.
  rewrite set_order_permutation in Hc.
  apply list_elem_of_fmap in Hc as ([k c'] & -> & Hin).
  destruct (set_of_Return _ _ _ set_inv_nil Hs) as (_ & Hmem & _).
  apply Hmem in Hin as [Hin | (_ & Hin & _)]; [by apply elem_of_nil in Hin|].
  cbn [snd] in Hin.
  apply for_each_Return in Hf.
  apply list_elem_of_lookup in Hin as [i Hi'].
  destruct (Forall2_lookup_r _ _ _ _ _ Hf Hi') as (record & Hrec & Hcity).
  apply city_of_item_Return in Hcity
    as (m & f & s & -> & Hfields & Hname & Hn & Hcode & Hcoords).
  exists m, f, s.
  split; [by eapply list_elem_of_lookup_2|].
  repeat (split; [done|]).
  cbn [snd]. unfold tuple_unless_none in Hcoords.
  destruct (default PNone (Obj.lookup_item (lit "coordonnees_gps") f)) eqn:Ed;
    simpl in Hcoords.
  1: { injection Hcoords as <-. done. }
  all: destruct (coordinates c'); [by split | done].
Qed.

(** X18: a JSON document that is not an array loads as nothing or not at
    all: an empty object or an empty string gives an empty gazetteer,
    anything else raises [TypeError]. *)
Theorem load_not_an_array (source : option (list Byte.byte)) (v : pyval) :
  source_json source = Some v ->
  (forall records, v <> PList records) ->
  (load_cities_fr source = Return [] /\ (v = PDict [] \/ v = PStr []))
  \/ (load_cities_fr source = Raise TypeError
      /\ v <> PDict [] /\ v <> PStr []).
Proof.
  unfold load_cities_fr, source_json. fold (stream_of source).
  destruct (gzip_read (stream_of source)) as [content|]; simpl; [|done].
  intros -> Hv. simpl.
  assert (Hnil : set_order [] = []).
  { apply Permutation_nil_r, set_order_permutation. }
  destruct v as [| | |s|records|m]; simpl.
  - by right.
  - by right.
  - by right.
  - destruct s as [|c s]; simpl; [left | right]; [|done].
    rewrite Hnil. by auto.
  - by destruct (Hv records).
  - destruct m as [|[k x] m]; simpl; [left | right]; [|done].
    rewrite Hnil. by auto.
Qed.

(** *** A property of [find_locations] *)

(** X19: the gazetteer is loaded before the locale is looked at: for a
    document that is not French, [find_locations] returns one empty
    result when the load succeeds and raises when the load raises. *)
Theorem find_locations_other_locale (content : OCRResult) :
  get_locale content <> Some (lit "fr") ->
  (forall l, load_cities_fr None = Return l ->
     find_locations content = Return [mkResult [] [] []])
  /\ (forall e, load_cities_fr None = Raise e ->
        find_locations content = Raise e).
Proof.
  intros H. unfold find_locations. split.
  - intros l ->. simpl. unfold extract_location.
    by rewrite bool_decide_eq_true_2.
  - by intros e ->.
Qed.

(** *** What the result depends on *)

(** X9: the per-word annotations that follow the marker never reach the
    result: two documents of the same locale whose texts start with the
    same description, free of vertical bar, give the same result. *)
Theorem extract_location_ignores_words (self : AddressExtractor)
    (o1 o2 : OCRResult) (a b1 b2 : str) :
  124%N ∉ a ->
  get_locale o1 = get_locale o2 ->
  text_annotations_str_lower o1 = a ++ lit "||" ++ b1 ->
  text_annotations_str_lower o2 = a ++ lit "||" ++ b2 ->
  extract_location self o1 = extract_location self o2.
Proof.
  intros Ha Hloc H1 H2. unfold extract_location.
  rewrite Hloc, H1, H2.
  rewrite !(prepare_text_marker _ (length a)) by by apply find_marker_after.
  by rewrite !take_app_length.
Qed.

End Facts.


(** ** Properties of [import_dump] *)

Section DumpFacts.
Import Py.
Context {D : DumpLibraries}.

Lemma mod_100_next_zero (r : Z) :
  0 <= r -> (r + 1) mod 100 = 0 -> r mod 100 = 99.
Proof. intros Hr H. Z.div_mod_to_equations. lia. Qed.

Lemma mod_100_next_nonzero (r : Z) :
  0 <= r -> (r + 1) mod 100 <> 0 -> (r + 1) mod 100 = r mod 100 + 1.
Proof. intros Hr H. Z.div_mod_to_equations. lia. Qed.

(** The invariant of the loop: [inserts] holds the rows built since the
    last call, fewer than 100 of them, and every call made was made with
    100 rows. *)
Lemma import_loop_spec (lines : list str) (inserts : list Insert) (rows : Z)
    (calls : list (list Insert)) (pre : list Insert) (o : option exn) :
  0 <= rows ->
  len inserts = rows mod 100 ->
  rows_of lines (Z.to_nat rows) = (pre, o) ->
  exists calls',
    import_loop lines inserts rows calls
    = (calls ++ calls',
       match o with None => Return tt | Some e => Raise e end)
    /\ match o with
       | None =>
           exists full last,
             calls' = full ++ [last]
             /\ Forall (fun b => length b = 100%nat) full
             /\ concat calls' = inserts ++ pre
             /\ (length last < 100)%nat
       | Some _ =>
           Forall (fun b => length b = 100%nat) calls'
           /\ exists lost,
                concat calls' ++ lost = inserts ++ pre
                /\ (length lost < 100)%nat
       end.
Proof.
  revert inserts rows calls pre o.
  induction lines as [|line lines IH]; intros inserts rows calls pre o Hr Hi H.
  - simpl in H. injection H as <- <-. exists [inserts]. split; [done|].
    exists [], inserts. split; [done|]. split; [constructor|].
    split; [simpl; by rewrite !app_nil_r|].
    unfold len in Hi. pose proof (Z.mod_pos_bound rows 100). lia.
  - cbn [rows_of import_loop] in *.
    assert (Hshort : (length inserts < 100)%nat).
    { unfold len in Hi. pose proof (Z.mod_pos_bound rows 100). lia. }
    destruct (iter_jsonl_item line) as [item|e] eqn:Ei; simpl in H.
    2: { injection H as <- <-. exists []. rewrite app_nil_r. split; [done|].
         split; [constructor|]. exists inserts. simpl.
         by rewrite app_nil_r. }
    destruct (insert_of (Z.to_nat rows) item) as [r|e] eqn:Er.
    2: { injection H as <- <-. exists []. rewrite app_nil_r. split; [done|].
         split; [constructor|]. exists inserts. simpl.
         by rewrite app_nil_r. }
    destruct (rows_of lines (S (Z.to_nat rows))) as [rs o'] eqn:Erest.
    injection H as <- <-.
    replace (S (Z.to_nat rows)) with (Z.to_nat (rows + 1)) in Erest by lia.
    destruct ((rows + 1) mod 100 =? 0) eqn:Em.
    + apply Z.eqb_eq in Em.
      pose proof (mod_100_next_zero rows Hr Em) as H99.
      assert (Hfull : length (inserts ++ [r]) = 100%nat).
      { rewrite length_app. simpl. unfold len in Hi. lia. }
      destruct (IH [] (rows + 1) (calls ++ [inserts ++ [r]]) rs o')
        as (calls' & -> & Hspec); [lia | by rewrite Em | done |].
      exists ((inserts ++ [r]) :: calls').
      split; [by rewrite <- app_assoc|].
      destruct o' as [e|].
      * destruct Hspec as (Hall & lost & Hlost & Hlen).
        split; [by constructor|]. exists lost. split; [|done].
        simpl in *. rewrite <- !app_assoc. simpl. by rewrite Hlost.
      * destruct Hspec as (full & last & -> & Hall & Hcat & Hlen).
        exists ((inserts ++ [r]) :: full), last.
        split; [done|]. split; [by constructor|]. split; [|done].
        simpl in *. rewrite <- !app_assoc. simpl. by rewrite Hcat.
    + apply Z.eqb_neq in Em.
      pose proof (mod_100_next_nonzero rows Hr Em) as Hnext.
      destruct (IH (inserts ++ [r]) (rows + 1) calls rs o')
        as (calls' & -> & Hspec); [lia | | done |].
      { unfold len in *. rewrite length_app. simpl. lia. }
      exists calls'. split; [done|].
      destruct o' as [e|].
      * destruct Hspec as (Hall & lost & Hlost & Hlen).
        split; [done|]. exists lost. split; [|done].
        by rewrite Hlost, <- app_assoc.
      * destruct Hspec as (full & last & -> & Hall & Hcat & Hlen).
        exists full, last. split; [done|]. split; [done|]. split; [|done].
        by rewrite Hcat, <- app_assoc.
Qed.

Lemma concat_length_100 (full : list (list Insert)) :
  Forall (fun b => length b = 100%nat) full ->
  length (concat full) = (100 * length full)%nat.
Proof.
  induction 1 as [|b full Hb _ IH]; [done|].
  simpl. rewrite length_app, Hb, IH. lia.
Qed.

(** X20: when every line gives a row, [import_dump] sends every row once, in
    order, in calls of exactly 100 rows followed by one last call with
    the rest; the last call is made even when nothing is left, so there
    are [n / 100 + 1] calls for [n] rows. *)
Theorem import_dump_batches (lines : list str) (pre : list Insert) :
  rows_of lines 0 = (pre, None) ->
  exists full last,
    import_dump lines = (full ++ [last], Return tt)
    /\ Forall (fun b => length b = 100%nat) full
    /\ concat (full ++ [last]) = pre
    /\ len full = len pre / 100
    /\ len last = len pre mod 100.
Proof.
  intros H. unfold import_dump.
  destruct (import_loop_spec lines [] 0 [] pre None) as (calls' & -> & Hspec);
    [lia | done | done |].
  destruct Hspec as (full & last & -> & Hall & Hcat & Hlen).
  exists full, last. split; [done|]. split; [done|]. split; [done|].
  apply (f_equal length) in Hcat.
  rewrite concat_app, length_app, (concat_length_100 _ Hall) in Hcat.
  simpl in Hcat. rewrite app_nil_r in Hcat.
  unfold len. rewrite <- Hcat.
  split; Z.div_mod_to_equations; lia.
Qed.

(** X21: when a line raises, on reading it or on building its row,
    [import_dump] raises the same exception after the calls of 100 rows
    already made: the rows built since the last call, up to 99, are not
    sent, and no last call is made. *)
Theorem import_dump_failure (lines : list str) (pre : list Insert) (e : exn) :
  rows_of lines 0 = (pre, Some e) ->
  exists calls,
    import_dump lines = (calls, Raise e)
    /\ Forall (fun b => length b = 100%nat) calls
    /\ concat calls = take (100 * length calls) pre
    /\ len calls = len pre / 100.
Proof.
  intros H. unfold import_dump.
  destruct (import_loop_spec lines [] 0 [] pre (Some e))
    as (calls' & -> & Hall & lost & Hlost & Hlen); [lia | done | done |].
  exists calls'. split; [done|]. split; [done|].
  simpl in Hlost.
  pose proof (concat_length_100 _ Hall) as Hc.
  split.
  - rewrite <- Hlost, <- Hc. by rewrite take_app_length.
  - apply (f_equal length) in Hlost. rewrite length_app, Hc in Hlost.
    unfold len. rewrite <- Hlost. Z.div_mod_to_equations. lia.
Qed.

End DumpFacts.

(** ** The module on the small instances *)

Import Py.

(** The sample parser reads the pattern of any postal code as
    [postal_pattern]. *)
Lemma sample_compile_postal_pattern (code : str) :
  is_postal_code code = true ->
  @compile Sample.libs (lit "(?:[^0-9]|^)(" ++ code ++ lit ")(?:[^0-9]|$)")
  = postal_pattern code.
Proof.
  intros _. change (@compile Sample.libs) with Sample.compile.
  unfold Sample.compile. f_equal.
  rewrite drop_app_length, !length_app.
  replace (length (lit "(?:[^0-9]|^)(")
           + (length code + length (lit ")(?:[^0-9]|$)"))
           - length (lit "(?:[^0-9]|^)(")
           - length (lit ")(?:[^0-9]|$)"))%nat
    with (length code) by lia.
  apply take_app_length.
Qed.




Lemma french_tables_excerpt : french_tables (L := Sample.libs).
Proof.
  intros c _. split; [done|]. by apply Forall_forall.
Qed.

(** *** Runs *)

Example prepare_text_with_marker :
  sample_prepare_text (lit "l'hay-les-roses||l'hay||les||roses")
  = lit "l hay les roses".
Proof. reflexivity. Qed.

(** é, U+00E9, before the marker. *)
Example prepare_text_accent :
  sample_prepare_text ([0xE9%N] ++ lit "vry||") = lit "evry".
Proof. reflexivity. Qed.

Example find_nearby_postal_code_alone :
  sample_find_nearby_postal_code (lit "75001") Sample.paris (0, 5)
  = Some (lit "75001", 0, 5).
Proof. reflexivity. Qed.

Example find_nearby_postal_code_embedded :
  sample_find_nearby_postal_code (lit "975001") Sample.paris (0, 6) = None.
Proof. reflexivity. Qed.

Example extract_location_french :
  sample_extract_location (init [Sample.paris]) Sample.french_ocr
  = mkResult [(lit "paris", 2, 7)]
             [((lit " 75001 ", 7, 14), (lit "paris", 2, 7))]
             [lit "a paris 75001 b"].
Proof. reflexivity. Qed.

Example extract_location_english :
  sample_extract_location (init [Sample.paris]) Sample.english_ocr
  = mkResult [] [] [].
Proof. reflexivity. Qed.

Example load_two_identical_records :
  sample_load Sample.gunzip
    (Sample.json_is (PList [Sample.record_paris; Sample.record_paris]))
  = Return [Sample.paris].
Proof. reflexivity. Qed.

Example load_records_equal_on_fields :
  sample_load Sample.gunzip
    (Sample.json_is (PList [Sample.record_paris; Sample.record_paris']))
  = Return [Sample.paris].
Proof. reflexivity. Qed.

(** A postal code more than ten characters after the city name is out
    of the window: the city is reported, no address is. *)
Example extract_location_far_code :
  sample_extract_location (init [Sample.paris])
    (mkOCRResult [mkAnnotation (Some (lit "fr"))]
       (lit "se rend a paris pres du 75001 centre||se"))
  = mkResult [(lit "paris", 10, 15)] [] [].
Proof. reflexivity. Qed.

(** The prepared text of a French word is as long as the word. *)
Example prepare_text_french_length_sample :
  len (sample_prepare_text ([0xE9%N] ++ lit "vry||")) = 4.
Proof.
  unfold sample_prepare_text.
  rewrite (prepare_text_french_length (L := Sample.libs));
    [reflexivity | exact french_tables_excerpt | reflexivity].
Qed.

(** *** The claims on concrete inputs *)

(** C1: for the city "paris" found at [0, 5) in "paris 75001 x", the
    linked span is [5, 12): it delimits " 75001 ", the postal code with
    the two characters around it, not the postal code "75001" itself,
    which stands at [6, 11). The function returns group 0 of the match,
    the boundary characters included, where the pattern captures the
    postal code in group 1. *)
Theorem linked_span_includes_boundaries :
  sample_find_nearby_postal_code (lit "paris 75001 x") Sample.paris (0, 5)
  = Some (lit " 75001 ", 5, 12)
  /\ slice (lit "paris 75001 x") (Some 5) (Some 12) = lit " 75001 "
  /\ slice (lit "paris 75001 x") (Some 5) (Some 12) <> lit "75001"
  /\ slice (lit "paris 75001 x") (Some 6) (Some 11) = lit "75001".
Proof.
  split; [reflexivity|]. split; [reflexivity|].
  split; [discriminate | reflexivity].
Qed.

(** C2: preparing "ab||c" gives "ab", and preparing "ab" gives "a": the
    prepared text holds no marker, so the second call drops its last
    character. *)
Theorem prepare_text_not_idempotent :
  sample_prepare_text (lit "ab||c") = lit "ab"
  /\ sample_prepare_text (sample_prepare_text (lit "ab||c")) = lit "a"
  /\ sample_prepare_text (sample_prepare_text (lit "ab||c"))
     <> sample_prepare_text (lit "ab||c").
Proof.
  split; [reflexivity|]. split; [reflexivity | discriminate].
Qed.

Lemma digit_adjacent_code_not_linked_witness :
  is_postal_code (format (L := Sample.libs) (postal_code Sample.paris)) = true
  /\ digit_adjacent_everywhere
       (format (L := Sample.libs) (postal_code Sample.paris))
       (search_window (lit "code 975001 reference") (0, 4)) = true
  /\ sample_find_nearby_postal_code (lit "code 975001 reference")
       Sample.paris (0, 4) = None.
Proof.
  split; [reflexivity|]. split; [reflexivity|].
  apply (digit_adjacent_code_not_linked (L := Sample.libs)
           sample_compile_postal_pattern).
  - reflexivity.
  - apply digit_adjacent_everywhere_spec. reflexivity.
Defined.

Lemma other_locale_empty_result_witness :
  get_locale Sample.unknown_ocr <> Some (lit "fr")
  /\ sample_extract_location (init [Sample.paris]) Sample.unknown_ocr
     = mkResult [] [] [].
Proof.
  split; [discriminate|].
  apply (other_locale_empty_result (L := Sample.libs)
           (init [Sample.paris]) Sample.unknown_ocr).
  discriminate.
Defined.

Lemma one_address_per_linked_pair_witness :
  get_locale Sample.french_ocr = Some (lit "fr")
  /\ full_cities (sample_extract_location (init [Sample.paris]) Sample.french_ocr)
     = [((lit " 75001 ", 7, 14), (lit "paris", 2, 7))]
  /\ addresses (sample_extract_location (init [Sample.paris]) Sample.french_ocr)
     = [address_snippet (lit "a paris 75001 b") (2, 7) (7, 14)].
Proof.
  split; [reflexivity|].
  destruct (one_address_per_linked_pair (L := Sample.libs)
              (init [Sample.paris]) Sample.french_ocr eq_refl)
    as [Hfull Haddr].
  split.
  - unfold sample_extract_location. rewrite Hfull. reflexivity.
  - unfold sample_extract_location. rewrite Haddr. reflexivity.
Defined.


(** C7: "ab" holds only basic Latin letters and no marker; its prepared
    text "a" has length 1, while the text truncated at the marker is the
    whole text, of length 2. *)
Theorem prepare_text_shortens_unmarked_text :
  forallb Unicode.french_letter (lit "ab") = true
  /\ find (lit "ab") (lit "||") = -1
  /\ sample_prepare_text (lit "ab") = lit "a"
  /\ len (sample_prepare_text (lit "ab")) = 1
  /\ len (lit "ab") = 2.
Proof. repeat split; reflexivity. Qed.

Lemma loaded_cities_distinct_witness :
  sample_load Sample.gunzip
    (Sample.json_is (PList [Sample.record_paris; Sample.record_paris]))
  = Return [Sample.paris]
  /\ NoDup (city_key <$> [Sample.paris])
  /\ length [Sample.paris] = 1%nat.
Proof.
  split; [reflexivity|].
  destruct (loaded_cities_distinct
              (L := Sample.libraries Sample.gunzip
                      (Sample.json_is
                         (PList [Sample.record_paris; Sample.record_paris])))
              (fun l => reflexivity l) (Some []) [Sample.paris] eq_refl)
    as (Hkeys & _ & _ & Hone).
  split; [exact Hkeys|].
  apply (Hone Sample.record_paris Sample.record_paris Sample.paris Sample.paris);
    reflexivity.
Defined.

(** C9: every record of the array holds a commune name and a postal
    code, the stream is read and its content is JSON, and the load
    raises all the same: the commune name is a number, which has no
    method [lower]. *)
Lemma ill_typed_name_raises :
  Sample.gunzip [] = Some []
  /\ Sample.json_is (PList [Sample.record_numeric_name]) []
     = Some (PList [Sample.record_numeric_name])
  /\ forallb has_required_fields [Sample.record_numeric_name] = true
  /\ sample_load Sample.gunzip
       (Sample.json_is (PList [Sample.record_numeric_name]))
     = Raise AttributeError.
Proof. repeat split; reflexivity. Qed.

Lemma load_failures_witness :
  sample_load Sample.gunzip_fails Sample.json_fails = Raise BadGzipFile
  /\ sample_load Sample.gunzip Sample.json_fails = Raise JSONDecodeError
  /\ (exists e, sample_load Sample.gunzip
                  (Sample.json_is (PList [Sample.record_paris;
                                          Sample.record_no_code]))
                = Raise e)
  /\ (exists l, sample_load Sample.gunzip
                  (Sample.json_is (PList [Sample.record_paris]))
                = Return l).
Proof.
  split; [|split; [|split]].
  - apply (load_failures
             (L := Sample.libraries Sample.gunzip_fails Sample.json_fails)
             (Some [])). reflexivity.
  - apply (load_failures
             (L := Sample.libraries Sample.gunzip Sample.json_fails)
             (Some [])) with (content := []); reflexivity.
  - apply (load_failures
             (L := Sample.libraries Sample.gunzip
                     (Sample.json_is
                        (PList [Sample.record_paris; Sample.record_no_code])))
             (Some []))
      with (json_data := PList [Sample.record_paris; Sample.record_no_code])
           (records := [Sample.record_paris; Sample.record_no_code])
           (record := Sample.record_no_code);
      [reflexivity | reflexivity | | reflexivity].
    apply list_elem_of_further, list_elem_of_here.
  - apply (load_failures
             (L := Sample.libraries Sample.gunzip
                     (Sample.json_is (PList [Sample.record_paris])))
             (Some []))
      with (records := [Sample.record_paris]); reflexivity.
Defined.

(** C10: the empty text holds no marker, and its prepared text is the
    normalized whole text: both are empty. *)
Lemma prepare_text_empty_is_whole :
  find [] (lit "||") = -1
  /\ sample_prepare_text [] = sample_normalize_chars [].
Proof. split; reflexivity. Qed.

Lemma prepare_text_drops_last_char_witness :
  find (lit "ab") (lit "||") = -1
  /\ sample_prepare_text (lit "ab") = sample_normalize_chars (lit "a")
  /\ sample_prepare_text (lit "ab") <> sample_normalize_chars (lit "ab").
Proof.
  split; [reflexivity|].
  destruct (prepare_text_drops_last_char (L := Sample.libs) (lit "ab") eq_refl)
    as (Hdrop & Hdiff & _).
  split; [exact Hdrop|].
  apply (Hdiff 98%N); [reflexivity | discriminate].
Defined.

(** *** The further properties on concrete inputs *)

Lemma linked_code_within_distance_witness :
  span_in (lit "a paris 75001 b") 2 7
  /\ sample_find_nearby_postal_code (lit "a paris 75001 b") Sample.paris (2, 7)
     = Some (lit " 75001 ", 7, 14)
  /\ 2 - 10 <= 7 /\ 14 <= 7 + 10.
Proof.
  assert (Hspan : span_in (lit "a paris 75001 b") 2 7)
    by (unfold span_in, len; simpl; lia).
  split; [exact Hspan|]. split; [reflexivity|].
  destruct (linked_code_within_distance (L := Sample.libs)
              (lit "a paris 75001 b") Sample.paris 2 7 (lit " 75001 ") 7 14
              Hspan eq_refl) as (_ & _ & _ & Hs & He).
  by split.
Defined.

Lemma linked_text_is_slice_witness :
  span_in (lit "a paris 75001 b") 2 7
  /\ sample_find_nearby_postal_code (lit "a paris 75001 b") Sample.paris (2, 7)
     = Some (lit " 75001 ", 7, 14)
  /\ lit " 75001 " = slice (lit "a paris 75001 b") (Some 7) (Some 14).
Proof.
  assert (Hspan : span_in (lit "a paris 75001 b") 2 7)
    by (unfold span_in, len; simpl; lia).
  split; [exact Hspan|]. split; [reflexivity|].
  exact (linked_text_is_slice (L := Sample.libs)
           (lit "a paris 75001 b") Sample.paris 2 7 (lit " 75001 ") 7 14
           Hspan eq_refl).
Defined.

Lemma not_linked_iff_no_free_occurrence_witness :
  is_postal_code (format (L := Sample.libs) (postal_code Sample.paris)) = true
  /\ sample_find_nearby_postal_code (lit "code 975001 reference")
       Sample.paris (0, 4) = None
  /\ forall p, ~ free_occurrence (lit "75001")
                   (search_window (lit "code 975001 reference") (0, 4)) p.
Proof.
  split; [reflexivity|]. split; [reflexivity|].
  apply (not_linked_iff_no_free_occurrence (L := Sample.libs)
           sample_compile_postal_pattern (lit "code 975001 reference")
           Sample.paris (0, 4) eq_refl).
  reflexivity.
Defined.

Lemma find_nearby_postal_code_first_occurrence_witness :
  is_postal_code (format (L := Sample.libs) (postal_code Sample.paris)) = true
  /\ sample_find_nearby_postal_code (lit "a paris 75001 b") Sample.paris (2, 7)
     = Some (lit " 75001 ", 7, 14)
  /\ exists p : nat,
       free_occurrence (lit "75001")
         (search_window (lit "a paris 75001 b") (2, 7)) p
       /\ (7 = 0 + Z.of_nat p - 1 \/ (7 = 0 /\ p = 0%nat)).
Proof.
  split; [reflexivity|]. split; [reflexivity|].
  destruct (find_nearby_postal_code_first_occurrence (L := Sample.libs)
              sample_compile_postal_pattern (lit "a paris 75001 b")
              Sample.paris (2, 7) (lit " 75001 ") 7 14 eq_refl
              ltac:(discriminate) eq_refl)
    as (p & Hfree & _ & Hs & _).
  exists p. split; [exact Hfree | exact Hs].
Defined.

Lemma full_cities_among_cities_witness :
  ((lit " 75001 ", 7, 14), (lit "paris", 2, 7))
    ∈ full_cities (sample_extract_location (init [Sample.paris])
                     Sample.french_ocr)
  /\ (lit "paris", 2, 7)
       ∈ cities (sample_extract_location (init [Sample.paris])
                   Sample.french_ocr).
Proof.
  assert (H : ((lit " 75001 ", 7, 14), (lit "paris", 2, 7))
                ∈ full_cities (sample_extract_location (init [Sample.paris])
                                 Sample.french_ocr))
    by apply list_elem_of_here.
  split; [exact H|].
  exact (full_cities_among_cities (L := Sample.libs) (init [Sample.paris])
           Sample.french_ocr _ _ H).
Defined.



(** "àéèïç", the example of the docstring of [remove_accents]. *)
Lemma remove_accents_french_witness :
  forallb Unicode.french_letter [0xE0; 0xE9; 0xE8; 0xEF; 0xE7]%N = true
  /\ remove_accents (L := Sample.libs) [0xE0; 0xE9; 0xE8; 0xEF; 0xE7]%N
     = lit "aeeic".
Proof.
  split; [reflexivity|].
  exact (proj1 (remove_accents_french (L := Sample.libs)
                  [0xE0; 0xE9; 0xE8; 0xEF; 0xE7]%N french_tables_excerpt
                  eq_refl)).
Defined.

Lemma prepare_text_no_apostrophe_no_hyphen_witness :
  32%N ∈ sample_prepare_text (lit "l'hay-les-roses||l'hay")
  /\ 32%N <> 39%N /\ 32%N <> 45%N.
Proof.
  assert (H : 32%N ∈ sample_prepare_text (lit "l'hay-les-roses||l'hay"))
    by apply list_elem_of_further, list_elem_of_here.
  split; [exact H|].
  exact (prepare_text_no_apostrophe_no_hyphen (L := Sample.libs) _ _ H).
Defined.

Lemma prepare_text_keeps_description_witness :
  (124%N ∉ lit "l'hay-les-roses")
  /\ sample_prepare_text (lit "l'hay-les-roses" ++ lit "||" ++ lit "l'hay")
     = lit "l hay les roses".
Proof.
  assert (H : 124%N ∉ (lit "l'hay-les-roses")).
  { apply (bool_decide_eq_false_1 (124%N ∈ lit "l'hay-les-roses")).
    reflexivity. }
  split; [exact H|].
  exact (prepare_text_keeps_description (L := Sample.libs)
           (lit "l'hay-les-roses") (lit "l'hay") H).
Defined.

Lemma prepare_text_french_description_witness :
  forallb Unicode.french_letter ([0xE9%N] ++ lit "vry-sur-seine") = true
  /\ (124%N ∉ [0xE9%N] ++ lit "vry-sur-seine")
  /\ sample_prepare_text (([0xE9%N] ++ lit "vry-sur-seine") ++ lit "||" ++ [])
     = lit "evry sur seine"
  /\ len (sample_prepare_text
            (([0xE9%N] ++ lit "vry-sur-seine") ++ lit "||" ++ [])) = 14.
Proof.
  assert (H : 124%N ∉ ([0xE9%N] ++ lit "vry-sur-seine")).
  { apply (bool_decide_eq_false_1 (124%N ∈ [0xE9%N] ++ lit "vry-sur-seine")).
    reflexivity. }
  split; [reflexivity|]. split; [exact H|].
  exact (prepare_text_french_description (L := Sample.libs)
           ([0xE9%N] ++ lit "vry-sur-seine") [] french_tables_excerpt
           eq_refl H).
Defined.

Lemma load_KeyError_names_required_key_witness :
  sample_load Sample.gunzip
    (Sample.json_is (PList [Sample.record_paris; Sample.record_no_code]))
  = Raise (KeyError (lit "code_postal"))
  /\ (lit "code_postal" = lit "fields"
      \/ lit "code_postal" = lit "nom_de_la_commune"
      \/ lit "code_postal" = lit "code_postal").
Proof.
  split; [reflexivity|].
  exact (proj1 (load_KeyError_names_required_key
                  (L := Sample.libraries Sample.gunzip
                          (Sample.json_is
                             (PList [Sample.record_paris;
                                     Sample.record_no_code])))
                  (Some []) (lit "code_postal") eq_refl)).
Defined.

Lemma loaded_cities_at_most_records_witness :
  sample_load Sample.gunzip
    (Sample.json_is (PList [Sample.record_paris; Sample.record_paris']))
  = Return [Sample.paris]
  /\ (length [Sample.paris]
      <= length [Sample.record_paris; Sample.record_paris'])%nat.
Proof.
  split; [reflexivity|].
  exact (loaded_cities_at_most_records
           (L := Sample.libraries Sample.gunzip
                   (Sample.json_is
                      (PList [Sample.record_paris; Sample.record_paris'])))
           (fun l => reflexivity l) (Some []) [Sample.paris]
           (PList [Sample.record_paris; Sample.record_paris'])
           [Sample.record_paris; Sample.record_paris'] eq_refl eq_refl eq_refl).
Defined.

Lemma loaded_city_from_record_witness :
  sample_load Sample.gunzip (Sample.json_is (PList [Sample.record_paris]))
  = Return [Sample.paris]
  /\ exists m f s,
       PDict m ∈ [Sample.record_paris]
       /\ Obj.lookup_item (lit "fields") m = Some (PDict f)
       /\ Obj.lookup_item (lit "nom_de_la_commune") f = Some (PStr s)
       /\ name Sample.paris = Sample.lower s.
Proof.
  split; [reflexivity|].
  destruct (loaded_city_from_record
              (L := Sample.libraries Sample.gunzip
                      (Sample.json_is (PList [Sample.record_paris])))
              (fun l => reflexivity l) (Some []) [Sample.paris]
              (PList [Sample.record_paris]) [Sample.record_paris]
              Sample.paris eq_refl eq_refl eq_refl
              (list_elem_of_here _ _))
    as (m & f & s & Hin & Hf & Hn & Hname & _).
  exists m, f, s. by repeat split.
Defined.

Lemma load_not_an_array_witness :
  sample_load Sample.gunzip (Sample.json_is (PDict [])) = Return []
  /\ sample_load Sample.gunzip (Sample.json_is (PNum 1%Qc)) = Raise TypeError.
Proof.
  split.
  - destruct (load_not_an_array
                (L := Sample.libraries Sample.gunzip (Sample.json_is (PDict [])))
                (fun l => reflexivity l) (Some []) (PDict []) eq_refl
                ltac:(discriminate))
      as [[H _] | (_ & H & _)]; [exact H | by destruct H].
  - destruct (load_not_an_array
                (L := Sample.libraries Sample.gunzip
                        (Sample.json_is (PNum 1%Qc)))
                (fun l => reflexivity l) (Some []) (PNum 1%Qc) eq_refl
                ltac:(discriminate))
      as [[_ [H | H]] | [H _]]; [discriminate H | discriminate H | exact H].
Defined.

Lemma find_locations_other_locale_witness :
  get_locale Sample.english_ocr <> Some (lit "fr")
  /\ find_locations
       (L := Sample.libraries Sample.gunzip
               (Sample.json_is (PList [Sample.record_paris])))
       Sample.english_ocr
     = Return [mkResult [] [] []]
  /\ find_locations
       (L := Sample.libraries Sample.gunzip_fails Sample.json_fails)
       Sample.english_ocr
     = Raise BadGzipFile.
Proof.
  assert (H : get_locale Sample.english_ocr <> Some (lit "fr"))
    by discriminate.
  split; [exact H|]. split.
  - exact (proj1 (find_locations_other_locale
                    (L := Sample.libraries Sample.gunzip
                            (Sample.json_is (PList [Sample.record_paris])))
                    Sample.english_ocr H) [Sample.paris] eq_refl).
  - exact (proj2 (find_locations_other_locale
                    (L := Sample.libraries Sample.gunzip_fails
                            Sample.json_fails)
                    Sample.english_ocr H) BadGzipFile eq_refl).
Defined.

Lemma extract_location_ignores_words_witness :
  (124%N ∉ lit "a paris 75001 b")
  /\ sample_extract_location (init [Sample.paris]) Sample.french_ocr
     = sample_extract_location (init [Sample.paris])
         (mkOCRResult [mkAnnotation (Some (lit "fr"))]
            (lit "a paris 75001 b||"))
  /\ sample_extract_location (init [Sample.paris]) Sample.french_ocr
     = mkResult [(lit "paris", 2, 7)]
                [((lit " 75001 ", 7, 14), (lit "paris", 2, 7))]
                [lit "a paris 75001 b"].
Proof.
  assert (H : 124%N ∉ (lit "a paris 75001 b")).
  { apply (bool_decide_eq_false_1 (124%N ∈ lit "a paris 75001 b")).
    reflexivity. }
  split; [exact H|]. split; [|reflexivity].
  exact (extract_location_ignores_words (L := Sample.libs)
           (init [Sample.paris]) Sample.french_ocr
           (mkOCRResult [mkAnnotation (Some (lit "fr"))]
              (lit "a paris 75001 b||"))
           (lit "a paris 75001 b") (lit "a||paris||75001||b") []
           H eq_refl eq_refl eq_refl).
Defined.

(** 205 lines that give a row each: two calls of 100 rows and a last one
    of 5. *)
Lemma import_dump_batches_witness :
  snd (rows_of (D := sample_dump_libraries) (repeat (lit "7") 205) 0) = None
  /\ exists full last,
       import_dump (D := sample_dump_libraries) (repeat (lit "7") 205)
       = (full ++ [last], Return tt)
       /\ len full = 2 /\ len last = 5.
Proof.
  assert (H : rows_of (D := sample_dump_libraries) (repeat (lit "7") 205) 0
              = (fst (rows_of (D := sample_dump_libraries)
                        (repeat (lit "7") 205) 0), None))
    by (vm_compute; reflexivity).
  split; [vm_compute; reflexivity|].
  destruct (import_dump_batches (D := sample_dump_libraries) _ _ H)
    as (full & last & Heq & _ & _ & Hfull & Hlast).
  exists full, last. split; [exact Heq|].
  split; [rewrite Hfull | rewrite Hlast]; vm_compute; reflexivity.
Defined.

(** 150 good lines, then a line that is not JSON: one call of 100 rows
    was made, 50 rows are lost. *)
Lemma import_dump_failure_witness :
  snd (rows_of (D := sample_dump_libraries)
         (repeat (lit "7") 150 ++ [lit "x"] ++ repeat (lit "7") 10) 0)
  = Some JSONDecodeError
  /\ exists calls,
       import_dump (D := sample_dump_libraries)
         (repeat (lit "7") 150 ++ [lit "x"] ++ repeat (lit "7") 10)
       = (calls, Raise JSONDecodeError)
       /\ len calls = 1.
Proof.
  assert (H : rows_of (D := sample_dump_libraries)
                (repeat (lit "7") 150 ++ [lit "x"] ++ repeat (lit "7") 10) 0
              = (fst (rows_of (D := sample_dump_libraries)
                        (repeat (lit "7") 150 ++ [lit "x"]
                         ++ repeat (lit "7") 10) 0),
                 Some JSONDecodeError))
    by (vm_compute; reflexivity).
  split; [vm_compute; reflexivity|].
  destruct (import_dump_failure (D := sample_dump_libraries) _ _ _ H)
    as (calls & Heq & _ & _ & Hlen).
  exists calls. split; [exact Heq|].
  rewrite Hlen. vm_compute. reflexivity.
Defined.

(** A file without lines: one call, with no row. *)
Example import_dump_empty_file :
  import_dump (D := sample_dump_libraries) [] = ([[]], Return tt).
Proof. reflexivity. Qed.
